(** * extract_company_info: the field normalizers and the record builder

    A shallow embedding of [utils.py] (phone and email normalizers, postal
    code filter and fallback, street address filter) and of
    [extract_single_company_info] of [main.py].

    A Python [str] is a sequence of Unicode code points, so a string is a
    [list N].  What the code takes from the Unicode character database
    ([\d] and [\b] of [re], [str.lower], matching under [re.IGNORECASE]) is
    a parameter of the development, the class [Unicode], constrained by the
    facts [UnicodeLaws] that the proofs use.  Python exceptions are the error
    monad [result]. *)

From Stdlib Require Import NArith ZArith Ascii String Lia.
From stdpp Require Import base tactics option list gmap.

Local Open Scope nat_scope.

(** ** Strings *)

Definition char := N.
Definition str := list char.

(** A literal of ASCII characters. *)
Definition py (s : string) : str := map N_of_ascii (list_ascii_of_string s).

(** ** Exceptions *)

Inductive exn := IndexError | KeyError.

Inductive result (A : Type) :=
  | Ok (a : A)
  | Raise (e : exn).
Arguments Ok {A} a.
Arguments Raise {A} e.

#[global] Instance result_ret : MRet result := λ A a, Ok a.
#[global] Instance result_bind : MBind result := λ A B f m,
  match m with
  | Ok a => f a
  | Raise e => Raise e
  end.

(** ** Python's [str] and [list] operations *)

Module Py.

(** [s.startswith(prefix)] *)
Fixpoint startswith (s prefix : str) {struct prefix} : bool :=
  match prefix, s with
  | [], _ => true
  | p :: prefix', c :: s' => (p =? c)%N && startswith s' prefix'
  | _ :: _, [] => false
  end.

(** [sub in s] *)
Fixpoint contains (s sub : str) : bool :=
  startswith s sub ||
  match s with
  | [] => false
  | _ :: s' => contains s' sub
  end.

(** [s.replace(old, new)]: the occurrences of [old] are found from the
    left and do not overlap; [skip] characters of a found occurrence are
    still to be passed over. *)
Fixpoint replace_from (old new : str) (skip : nat) (s : str) : str :=
  match s with
  | [] => []
  | c :: s' =>
    match skip with
    | S k => replace_from old new k s'
    | O =>
      if startswith s old then new ++ replace_from old new (length old - 1) s'
      else c :: replace_from old new 0 s'
    end
  end.

Definition replace (s old new : str) : str :=
  match old with
  | [] => new ++ flat_map (λ c, c :: new) s
  | _ :: _ => replace_from old new 0 s
  end.

(** [s.count(sub)] *)
Fixpoint count_from (sub : str) (skip : nat) (s : str) : nat :=
  match s with
  | [] => 0
  | _ :: s' =>
    match skip with
    | S k => count_from sub k s'
    | O =>
      if startswith s sub then S (count_from sub (length sub - 1) s')
      else count_from sub 0 s'
    end
  end.

Definition count (s sub : str) : nat :=
  match sub with
  | [] => S (length s)
  | _ :: _ => count_from sub 0 s
  end.

(** [s.split(sep)] for a separator of one character *)
Fixpoint split (s : str) (sep : char) : list str :=
  match s with
  | [] => [[]]
  | c :: s' =>
    if (c =? sep)%N then [] :: split s' sep
    else
      match split s' sep with
      | seg :: segs => (c :: seg) :: segs
      | [] => [[c]]
      end
  end.

(** [sep.join(parts)] *)
Fixpoint join (sep : str) (parts : list str) : str :=
  match parts with
  | [] => []
  | p :: ps =>
    match ps with
    | [] => p
    | _ :: _ => p ++ sep ++ join sep ps
    end
  end.

(** [str.isspace] of one character ([_PyUnicode_IsWhitespace]) *)
Definition isspace (c : char) : bool :=
  ((9 <=? c) && (c <=? 13) || (28 <=? c) && (c <=? 32) || (c =? 133)
   || (c =? 160) || (c =? 5760) || (8192 <=? c) && (c <=? 8202)
   || (c =? 8232) || (c =? 8233) || (c =? 8239) || (c =? 8287)
   || (c =? 12288))%N.

Fixpoint lstrip (s : str) : str :=
  match s with
  | [] => []
  | c :: s' => if isspace c then lstrip s' else s
  end.

Definition rstrip (s : str) : str := reverse (lstrip (reverse s)).

(** [s.strip()] *)
Definition strip (s : str) : str := rstrip (lstrip s).

(** [l[i]], where a negative [i] counts from the end *)
Definition getitem {A} (l : list A) (i : Z) : result A :=
  let n := Z.of_nat (length l) in
  let j := if (i <? 0)%Z then (n + i)%Z else i in
  if (j <? 0)%Z then Raise IndexError
  else
    match l !! Z.to_nat j with
    | Some x => Ok x
    | None => Raise IndexError
    end.

(** [l[i] = x] *)
Definition setitem {A} (l : list A) (i : Z) (x : A) : result (list A) :=
  let n := Z.of_nat (length l) in
  let j := if (i <? 0)%Z then (n + i)%Z else i in
  if (j <? 0)%Z || (n <=? j)%Z then Raise IndexError
  else Ok (<[Z.to_nat j := x]> l).

(** truth value of a list or a string: empty is false *)
Definition truthy {A} (l : list A) : bool :=
  match l with
  | [] => false
  | _ :: _ => true
  end.

End Py.

(** ** The Unicode character database *)

Module Ascii.
Definition isdigit (c : char) : bool := ((48 <=? c) && (c <=? 57))%N.
Definition isupper (c : char) : bool := ((65 <=? c) && (c <=? 90))%N.
Definition islower (c : char) : bool := ((97 <=? c) && (c <=? 122))%N.
Definition isalpha (c : char) : bool := isupper c || islower c.
Definition isalnum (c : char) : bool := isalpha c || isdigit c.
Definition tolower (c : char) : char := if isupper c then (c + 32)%N else c.
End Ascii.

Class Unicode := {
  (** [Py_UNICODE_ISDECIMAL]: the characters [\d] matches in a [str] pattern *)
  isdecimal : char → bool;
  (** [Py_UNICODE_ISALNUM]: with ['_'], the characters [\w] matches *)
  isalnum : char → bool;
  (** [str.lower()] *)
  lower : str → str;
  (** [ci_match p c]: under [re.IGNORECASE] the literal [p] of a pattern
      matches the character [c] *)
  ci_match : char → char → bool
}.

Class UnicodeLaws (U : Unicode) : Prop := {
  (** below U+0660 the decimal digits are [0] to [9] *)
  isdecimal_low c : (c < 1632)%N → isdecimal c = Ascii.isdigit c;
  isdecimal_space c : Py.isspace c = true → isdecimal c = false;
  isalnum_decimal c : isdecimal c = true → isalnum c = true;
  lower_ascii s : Forall (λ c, (c < 128)%N) s → lower s = map Ascii.tolower s;
  (** the characters of a lowercased string are themselves lower case *)
  lower_lowered s c : c ∈ lower s → lower [c] = [c];
  lower_pointwise s : (∀ c, c ∈ s → lower [c] = [c]) → lower s = s;
  ci_match_refl p : ci_match p p = true;
  (** decimal digits and the ASCII characters that are no letters have no
      case: they match themselves only *)
  ci_match_decimal p c : isdecimal c = true → ci_match p c = (p =? c)%N;
  ci_match_uncased p c :
    (c < 128)%N → Ascii.isalpha c = false → ci_match p c = (p =? c)%N
}.

(** The database restricted to Basic Latin: a character outside ASCII is
    taken to be no digit, no letter and to have no case. *)
Definition basic_latin : Unicode := {|
  isdecimal c := Ascii.isdigit c;
  isalnum c := Ascii.isalnum c;
  lower s := map Ascii.tolower s;
  ci_match p c := (Ascii.tolower p =? Ascii.tolower c)%N
|}.

(** ** Python's [re]: a backtracking matcher

    The patterns of [utils.py] use literals, [\d], a negated set, [\b],
    alternation, bounded repetition and one group.  [rmatch] tries the
    alternatives in Python's order (left alternative first, greedy
    repetition) and calls the continuation [k] with the text that is left;
    [prev] is the character before the current position, for [\b]. *)

Inductive cls :=
  | CDigit
  | CChr (c : char).

Inductive regex :=
  | Lit (c : char)
  | Digit
  | CharSet (negate : bool) (items : list cls)
  | WordB
  | Seq (r1 r2 : regex)
  | Alt (r1 r2 : regex)
  | Rep (lo hi : nat) (r : regex)
  | Group (r : regex).

(** A literal word. *)
Fixpoint lits (s : str) : regex :=
  match s with
  | [] => Rep 0 0 Digit
  | c :: s' =>
    match s' with
    | [] => Lit c
    | _ :: _ => Seq (Lit c) (lits s')
    end
  end.

Module Re.
Section WithUnicode.
Context {U : Unicode}.

Definition lit_match (ic : bool) (p c : char) : bool :=
  if ic then ci_match p c else (p =? c)%N.

Definition cls_match (ic : bool) (c : char) (i : cls) : bool :=
  match i with
  | CDigit => isdecimal c
  | CChr p => lit_match ic p c
  end.

(** [\w] *)
Definition isword (c : char) : bool := isalnum c || (c =? 95)%N.

(** [\b]: exactly one of the characters before and after is a word
    character; there is none before the start and after the end. *)
Definition at_boundary (prev : option char) (s : str) : bool :=
  xorb (from_option isword false prev) (from_option isword false (head s)).

Fixpoint rmatch (ic : bool) (r : regex) (prev : option char) (s : str)
    (k : option char → str → option str) {struct r} : option str :=
  match r with
  | Lit p =>
    match s with
    | c :: s' => if lit_match ic p c then k (Some c) s' else None
    | [] => None
    end
  | Digit =>
    match s with
    | c :: s' => if isdecimal c then k (Some c) s' else None
    | [] => None
    end
  | CharSet negate items =>
    match s with
    | c :: s' =>
      if xorb negate (existsb (cls_match ic c) items) then k (Some c) s'
      else None
    | [] => None
    end
  | WordB => if at_boundary prev s then k prev s else None
  | Seq r1 r2 => rmatch ic r1 prev s (λ prev' s', rmatch ic r2 prev' s' k)
  | Alt r1 r2 =>
    match rmatch ic r1 prev s k with
    | Some rest => Some rest
    | None => rmatch ic r2 prev s k
    end
  | Rep lo hi r1 =>
    (fix rep (lo hi : nat) (prev : option char) (s : str) {struct hi}
        : option str :=
       match hi with
       | O => match lo with O => k prev s | S _ => None end
       | S hi' =>
         match rmatch ic r1 prev s (λ prev' s', rep (pred lo) hi' prev' s') with
         | Some rest => Some rest
         | None => match lo with O => k prev s | S _ => None end
         end
       end) lo hi prev s
  | Group r1 => rmatch ic r1 prev s k
  end.

(** A match starting at the current position: the text after it. *)
Definition match_here (ic : bool) (r : regex) (prev : option char)
    (s : str) : option str :=
  rmatch ic r prev s (λ _ rest, Some rest).

(** [re.fullmatch(r, s)] as a truth value *)
Definition fullmatch (r : regex) (s : str) : bool :=
  match rmatch false r None s
          (λ _ rest, match rest with [] => Some [] | _ :: _ => None end) with
  | Some _ => true
  | None => false
  end.

Definition cons_head (c : char) (pieces : list str) : list str :=
  match pieces with
  | piece :: pieces' => (c :: piece) :: pieces'
  | [] => [[c]]
  end.

(** [re.split(r, s)] for a pattern [r] that is one capturing group: the
    text between the matches alternates with the matched text.  The
    matches are searched from the left and do not overlap; [skip]
    characters of the last match are still to be passed over. *)
Fixpoint split_from (ic : bool) (r : regex) (prev : option char)
    (skip : nat) (s : str) : list str :=
  match skip with
  | S k =>
    match s with
    | [] => [[]]
    | c :: s' => split_from ic r (Some c) k s'
    end
  | O =>
    match match_here ic r prev s with
    | Some rest =>
      let n := length s - length rest in
      [] :: take n s ::
        match s with
        | [] => [[]]
        | c :: s' =>
          match n with
          | O => cons_head c (split_from ic r (Some c) 0 s')
          | S n' => split_from ic r (Some c) n' s'
          end
        end
    | None =>
      match s with
      | [] => [[]]
      | c :: s' => cons_head c (split_from ic r (Some c) 0 s')
      end
    end
  end.

Definition split (ic : bool) (r : regex) (s : str) : list str :=
  split_from ic r None 0 s.

(** [re.sub(r, repl, s)] for a replacement without group references *)
Fixpoint sub_from (r : regex) (repl : str) (prev : option char)
    (skip : nat) (s : str) : str :=
  match skip with
  | S k =>
    match s with
    | [] => []
    | c :: s' => sub_from r repl (Some c) k s'
    end
  | O =>
    match match_here false r prev s with
    | Some rest =>
      let n := length s - length rest in
      repl ++
        match s with
        | [] => []
        | c :: s' =>
          match n with
          | O => c :: sub_from r repl (Some c) 0 s'
          | S n' => sub_from r repl (Some c) n' s'
          end
        end
    | None =>
      match s with
      | [] => []
      | c :: s' => c :: sub_from r repl (Some c) 0 s'
      end
    end
  end.

Definition sub (r : regex) (repl s : str) : str := sub_from r repl None 0 s.

(** [re.findall(r, s)] for a pattern without groups *)
Fixpoint findall_from (r : regex) (prev : option char) (skip : nat)
    (s : str) : list str :=
  match skip with
  | S k =>
    match s with
    | [] => []
    | c :: s' => findall_from r (Some c) k s'
    end
  | O =>
    match match_here false r prev s with
    | Some rest =>
      let n := length s - length rest in
      take n s ::
        match s with
        | [] => []
        | c :: s' => findall_from r (Some c) (pred n) s'
        end
    | None =>
      match s with
      | [] => []
      | c :: s' => findall_from r (Some c) 0 s'
      end
    end
  end.

Definition findall (r : regex) (s : str) : list str := findall_from r None 0 s.

End WithUnicode.
End Re.

(** ** utils.py *)

(** The Cyrillic words of the marker pattern. *)
Definition cyr_fax : str := [1092; 1072; 1082; 1089]%N.
Definition cyr_tel : str := [1090; 1077; 1083]%N.

(** [(fax|e-?mail|факс|тел)] *)
Definition marker_re : regex :=
  Group (Alt (lits (py "fax"))
        (Alt (Seq (Lit 101%N) (Seq (Rep 0 1 (Lit 45%N)) (lits (py "mail"))))
        (Alt (lits cyr_fax) (lits cyr_tel)))).

(** [[^\d+]] *)
Definition junk_re : regex := CharSet true [CDigit; CChr 43%N].

(** [0\d{8,9}] *)
Definition local_re : regex := Seq (Lit 48%N) (Rep 8 9 Digit).

(** [\d{4}] *)
Definition postal_re : regex := Rep 4 4 Digit.

(** [\b\d{4}\b] *)
Definition postal_word_re : regex := Seq WordB (Seq (Rep 4 4 Digit) WordB).

(** [list(set(l))]: the elements of [l] without repetition, in the order in
    which the set lists them. *)
Definition list_set (l : list str) : list str :=
  elements (list_to_set l : gset str).

Section Utils.
Context {U : Unicode}.

(** The body of the loop of [clean_phone_number]: [clean_phones] is the
    list built so far, the result is the list after this [phone]. *)
Definition clean_phone_step (clean_phones : list str) (phone : str)
    : result (list str) :=
  let phone := Py.strip (Py.replace phone [160%N] [32%N]) in
  phone ← Py.getitem (Re.split true marker_re phone) 0;
  let phone := Re.sub junk_re [] phone in
  let phone :=
    if 1 <? Py.count phone (py "+")
    then py "+" ++ Py.replace phone (py "+") []
    else phone in
  let phone :=
    if Py.startswith phone (py "+3590") then py "+359" ++ drop 5 phone
    else if Re.fullmatch local_re phone then py "+359" ++ drop 1 phone
    else phone in
  if (length phone <? 10) || negb (Py.startswith phone (py "+"))
  then Ok clean_phones
  else Ok (clean_phones ++ [phone]).

Fixpoint clean_phone_loop (clean_phones : list str) (phones : list str)
    : result (list str) :=
  match phones with
  | [] => Ok clean_phones
  | phone :: phones' =>
    clean_phones ← clean_phone_step clean_phones phone;
    clean_phone_loop clean_phones phones'
  end.

Definition clean_phone_number (phones : list str) : result (list str) :=
  if negb (Py.truthy phones) then Ok []
  else
    clean_phones ← clean_phone_loop [] phones;
    Ok (list_set clean_phones).

(** The body of the loop of [clean_emails]. *)
Definition clean_email_step (cleaned_emails : list str) (email : str)
    : result (list str) :=
  let email_parts := Py.split email 46%N in
  last ← Py.getitem email_parts (-1);
  email_parts ← Py.setitem email_parts (-1)
    (Py.replace (Py.replace (lower last) (py "web") []) (py "www") []);
  Ok (cleaned_emails ++ [Py.join (py ".") email_parts]).

Fixpoint clean_email_loop (cleaned_emails : list str) (emails : list str)
    : result (list str) :=
  match emails with
  | [] => Ok cleaned_emails
  | email :: emails' =>
    cleaned_emails ← clean_email_step cleaned_emails email;
    clean_email_loop cleaned_emails emails'
  end.

Definition clean_emails (emails : list str) : result (list str) :=
  if negb (Py.truthy emails) then Ok []
  else clean_email_loop [] emails.

(** [None] is Python's [None]. *)
Definition extract_postal_code_fallback (text : str) : result (option str) :=
  let matches := Re.findall postal_word_re text in
  if Py.truthy matches then m ← Py.getitem matches 0; Ok (Some m)
  else Ok None.

Definition filter_postal_code (values : list str) : list str :=
  List.filter (λ v, Re.fullmatch postal_re v) values.

Definition street_words : list str := [py "str"; py "blvd"; py "bul."].

Definition filter_street_address (values : list str) : list str :=
  List.filter (λ v, existsb (λ word, Py.contains (lower v) word) street_words)
    values.

End Utils.

(** ** main.py *)

(** A match of the recognizer: [e['label']] and [e['text']]. *)
Record entity := { label : str; text : str }.

(** A value of the returned record: a string or a list of strings. *)
Inductive value :=
  | VStr (s : str)
  | VList (l : list str).

(** [[e['text'] for e in ents]] *)
Definition texts_of (ents : list entity) : list str := map text ents.

(** [d[k]] on a dictionary *)
Definition dict_getitem {V} (d : gmap str V) (k : str) : result V :=
  match d !! k with
  | Some v => Ok v
  | None => Raise KeyError
  end.

(** The dictionary [label_map], in the order of its items. *)
Definition label_map : list (str * str) := [
  (py "phone", py "phone number like +359 2 439 81 50 or starting with +359");
  (py "site", py "website address like www.bank.bg or www.domain.com");
  (py "street_address",
   py "street address that contains street name and number like '16 Srebarna Str.'");
  (py "city", py "city name in Bulgaria (e.g. Sofia, Plovdiv)");
  (py "country", py "country name like Bulgaria");
  (py "postal_code", py "numeric postal code")
].

Definition email_label : list (str * str) := [
  (py "email", py "email address with @ symbol, e.g. info@company.bg")
].

(** [{v: k for k, v in label_map.items()}]: a later item replaces an
    earlier one with the same description. *)
Definition reverse_map : gmap str str :=
  foldl (λ (m : gmap str str) '(k, v), <[v := k]> m) ∅ label_map.

(** [{key: [] for key in label_map}] *)
Definition empty_extracted : gmap str (list str) :=
  foldl (λ (m : gmap str (list str)) '(k, _), <[k := []]> m) ∅ label_map.

(** The name of the first field starts with the Cyrillic capital Es. *)
Definition company_name_key : str := 1057%N :: py "ompany name".

(** [l or placeholder] for a list [l] *)
Definition list_or (l : list str) (placeholder : str) : value :=
  if Py.truthy l then VList l else VStr placeholder.

(** [l[0] if l else placeholder] *)
Definition first_or (l : list str) (placeholder : str) : result value :=
  if Py.truthy l then x ← Py.getitem l 0; Ok (VStr x) else Ok (VStr placeholder).

(** [s or placeholder] for [s] a string or [None] *)
Definition str_or (s : option str) (placeholder : str) : value :=
  match s with
  | Some s => if Py.truthy s then VStr s else VStr placeholder
  | None => VStr placeholder
  end.

Section Main.
Context {U : Unicode}.
(** [model.predict_entities(text, labels=...)] *)
Variable predict_entities : str → list str → list entity.

(** The body of the loop over [ents]. *)
Definition classify_step (extracted : gmap str (list str)) (e : entity)
    : result (gmap str (list str)) :=
  match reverse_map !! label e with
  | Some key =>
    if Py.truthy key then
      l ← dict_getitem extracted key;
      Ok (<[key := l ++ [text e]]> extracted)
    else Ok extracted
  | None => Ok extracted
  end.

Fixpoint classify_loop (extracted : gmap str (list str)) (ents : list entity)
    : result (gmap str (list str)) :=
  match ents with
  | [] => Ok extracted
  | e :: ents' =>
    extracted ← classify_step extracted e;
    classify_loop extracted ents'
  end.

Definition extract_single_company_info (text : str)
    : result (list (str * value)) :=
  let email_ents := predict_entities text (map snd email_label) in
  let extracted_emails :=
    if Py.truthy email_ents then texts_of email_ents else [] in
  let ents := predict_entities text (map snd label_map) in
  extracted ← classify_loop empty_extracted ents;
  phones ← dict_getitem extracted (py "phone");
  cleaned_phones ← clean_phone_number phones;
  cleaned_emails ← clean_emails extracted_emails;
  streets ← dict_getitem extracted (py "street_address");
  let address_candidates := filter_street_address streets in
  postals ← dict_getitem extracted (py "postal_code");
  let postal_candidates := filter_postal_code postals in
  postal_code ←
    (if Py.truthy postal_candidates
     then p ← Py.getitem postal_candidates 0; Ok (Some p)
     else extract_postal_code_fallback text);
  name ← Py.getitem (Py.split text 44%N) 0;
  sites ← dict_getitem extracted (py "site");
  street ← first_or address_candidates (py "No street address detected");
  cities ← dict_getitem extracted (py "city");
  city ← first_or cities (py "No city detected");
  countries ← dict_getitem extracted (py "country");
  country ← first_or countries (py "No country detected");
  Ok [
    (company_name_key, VStr name);
    (py "Phone numbers", list_or cleaned_phones (py "No phones detected"));
    (py "Emails", list_or cleaned_emails (py "No emails detected"));
    (py "Websites", list_or sites (py "No website detected"));
    (py "Street address", street);
    (py "City", city);
    (py "Country", country);
    (py "Postal code", str_or postal_code (py "No postal code detected"))
  ].

End Main.

(** ** Notions used in the statements *)

Section Notions.
Context {U : Unicode}.

(** What [clean_emails] does to the last segment of an email. *)
Definition clean_last_segment (seg : str) : str :=
  Py.replace (Py.replace (lower seg) (py "web") []) (py "www") [].

(** The last dot-separated segment of an email. *)
Definition last_segment (e : str) : str := default [] (last (Py.split e 46%N)).

(** [email_cleaned e e']: [e'] is [e] with its last dot-separated segment
    cleaned, the text up to the last dot being kept. *)
Definition email_cleaned (e e' : str) : Prop :=
  ∃ stem,
    e = stem ++ last_segment e ∧
    e' = stem ++ clean_last_segment (last_segment e).

(** A string of exactly four decimal digits. *)
Definition four_digits (v : str) : bool :=
  (length v =? 4) && forallb isdecimal v.

(** A decimal digit or a plus sign. *)
Definition phone_char (c : char) : bool := isdecimal c || (43 =? c)%N.

(** A plus sign followed by at least nine decimal digits. *)
Definition plus_digits (p : str) : Prop :=
  ∃ ds, p = 43%N :: ds ∧ Forall (λ c, isdecimal c = true) ds ∧ 9 ≤ length ds.

(** A character without case: a decimal digit or an ASCII character that
    is no letter. *)
Definition uncased (c : char) : bool :=
  isdecimal c || ((c <? 128)%N && negb (Ascii.isalpha c)).

End Notions.

Section RecordNotions.
Context {U : Unicode}.

(** The candidates of a field: the texts of the matches that carry the
    description of the field as their label, in the order of the
    matches. *)
Definition candidates (description : str) (ents : list entity) : list str :=
  texts_of (List.filter (λ e, bool_decide (label e = description)) ents).

(** [record[k]] on the returned record. *)
Fixpoint record_get (record : list (str * value)) (k : str) : option value :=
  match record with
  | [] => None
  | (k', v) :: record' =>
    if bool_decide (k' = k) then Some v else record_get record' k
  end.

(** A run of four decimal digits at the start of [s], with no word
    character before it ([prev]) and none after it. *)
Definition standalone_run (prev : option char) (s : str) : bool :=
  negb (from_option Re.isword false prev) &&
  four_digits (take 4 s) &&
  negb (from_option Re.isword false (s !! 4)).

(** The fallback as the specification words it: the first standalone run
    of exactly four digits bounded by word boundaries, searched from the
    left.  [extract_postal_code_fallback] is proved to compute it. *)
Fixpoint first_postal_run (prev : option char) (s : str) : option str :=
  if standalone_run prev s then Some (take 4 s)
  else
    match s with
    | [] => None
    | c :: s' => first_postal_run (Some c) s'
    end.

(** A list-valued field: the placeholder, or a list that is not empty. *)
Definition list_field (placeholder : str) (l : list str) (v : value) : Prop :=
  (l = [] ∧ v = VStr placeholder) ∨ (l ≠ [] ∧ v = VList l).

(** A string-valued field: the placeholder, or the first of its
    candidates. *)
Definition first_field (placeholder : str) (l : list str) (v : value) : Prop :=
  (l = [] ∧ v = VStr placeholder) ∨ (∃ s l', l = s :: l' ∧ v = VStr s).

(** One of the street words occurs in the lowercased string. *)
Definition has_street_word (v : str) : Prop :=
  ∃ word pre post, word ∈ street_words ∧ lower v = pre ++ word ++ post.

(** The test of [filter_street_address] on one string. *)
Definition street_like (v : str) : bool :=
  existsb (λ word, Py.contains (lower v) word) street_words.

(** [label_map[key]] *)
Definition description_of (key : str) : str :=
  from_option snd [] (List.find (λ p, bool_decide (p.1 = key)) label_map).

(** [l[0] if l else placeholder] as a value *)
Definition first_value (placeholder : str) (l : list str) : value :=
  VStr (default placeholder (head l)).

(** The postal code before the placeholder is applied. *)
Definition postal_code_of (ents : list entity) (text : str) : option str :=
  match filter_postal_code (candidates (description_of (py "postal_code")) ents) with
  | p :: _ => Some p
  | [] => head (Re.findall postal_word_re text)
  end.

End RecordNotions.

(** A recognizer that finds nothing, and one that finds the fields of the
    row of the docstring. *)
Definition no_entities (text : str) (labels : list str) : list entity := [].

Definition docstring_entities (text : str) (labels : list str) : list entity :=
  if bool_decide (labels = map snd email_label)
  then [ {| label := default [] (head labels); text := py "info@abc.bg" |} ]
  else [
    {| label := description_of (py "country"); text := py "Bulgaria" |};
    {| label := description_of (py "city"); text := py "Sofia" |};
    {| label := description_of (py "postal_code"); text := py "1000" |};
    {| label := description_of (py "street_address"); text := py "12 Main Str." |};
    {| label := description_of (py "phone"); text := py "+35921234567" |}
  ].

(** ** The batch driver and the row source *)

Section Batch.
Context {U : Unicode}.
Variable predict_entities : str → list str → list entity.

(** [[extract_single_company_info(text) for text in texts]] *)
Fixpoint extract_companies_info (texts : list str)
    : result (list (list (str * value))) :=
  match texts with
  | [] => Ok []
  | text :: texts' =>
    record ← extract_single_company_info predict_entities text;
    records ← extract_companies_info texts';
    Ok (record :: records)
  end.

End Batch.

(** The loop of [extract_text_from_html_page] on the parsed page: [trs] is
    what [soup.find_all("tr")] returns, each row given by the texts of its
    [td] cells; the request and the parser are outside the model. *)
Definition extract_text_from_html_page (trs : list (list str)) : list str :=
  map (Py.join (py ", ")) (drop 1 trs).

(** The names of the fields of a record, in the order of the literal. *)
Definition field_names : list str := [
  company_name_key; py "Phone numbers"; py "Emails"; py "Websites";
  py "Street address"; py "City"; py "Country"; py "Postal code"
].


Section PhoneNotions.
Context {U : Unicode}.

(** The three last steps of the loop body of [clean_phone_number], on
    the string of digits and plus signs: several plus signs become one
    leading plus sign; the country code is put in place; the candidate is
    kept ([Some]) or skipped ([None]). *)
Definition collapse_plus (phone : str) : str :=
  if 1 <? Py.count phone (py "+")
  then py "+" ++ Py.replace phone (py "+") []
  else phone.

Definition country_code (phone : str) : str :=
  if Py.startswith phone (py "+3590") then py "+359" ++ drop 5 phone
  else if Re.fullmatch local_re phone then py "+359" ++ drop 1 phone
  else phone.

Definition phone_finish (phone : str) : option str :=
  let phone := country_code (collapse_plus phone) in
  if (length phone <? 10) || negb (Py.startswith phone (py "+"))
  then None
  else Some phone.

End PhoneNotions.


Section FallbackNotions.
Context {U : Unicode}.

(** The character before the position reached after [pre], when [prev]
    is the character before [pre]. *)
Definition prev_of (prev : option char) (pre : str) : option char :=
  match last pre with
  | Some c => Some c
  | None => prev
  end.

(** [run] stands alone in [text] after [pre]: it is four decimal digits,
    and neither the character before it nor the one after it is a word
    character. *)
Definition postal_run_at (text pre run post : str) : Prop :=
  text = pre ++ run ++ post ∧
  four_digits run = true ∧
  from_option Re.isword false (last pre) = false ∧
  from_option Re.isword false (head post) = false.

End FallbackNotions.
(** * Proofs *)

#[local] Arguments N.eqb : simpl never.
#[local] Arguments N.leb : simpl never.

(** Case analysis on every comparison of code points in sight, after the
    comparisons that the context decides. *)
Ltac nstep :=
  match goal with
  | |- context [(?a <=? ?b)%N] =>
    first [ rewrite (proj2 (N.leb_le a b)) by lia
          | rewrite (proj2 (N.leb_gt a b)) by lia ]
  | H : context [(?a <=? ?b)%N] |- _ =>
    first [ rewrite (proj2 (N.leb_le a b)) in H by lia
          | rewrite (proj2 (N.leb_gt a b)) in H by lia ]
  | |- context [(?a =? ?b)%N] =>
    first [ rewrite (proj2 (N.eqb_eq a b)) by lia
          | rewrite (proj2 (N.eqb_neq a b)) by lia ]
  | H : context [(?a =? ?b)%N] |- _ =>
    first [ rewrite (proj2 (N.eqb_eq a b)) in H by lia
          | rewrite (proj2 (N.eqb_neq a b)) in H by lia ]
  | |- context [(?a <=? ?b)%N] => destruct (N.leb_spec a b)
  | H : context [(?a <=? ?b)%N] |- _ => destruct (N.leb_spec a b)
  | |- context [(?a =? ?b)%N] => destruct (N.eqb_spec a b)
  | H : context [(?a =? ?b)%N] |- _ => destruct (N.eqb_spec a b)
  end.
Ltac ncases := repeat (nstep; simpl in *; try done); try done; try lia.

(** ** The Basic Latin database satisfies the laws *)

Lemma ascii_tolower_idemp c : Ascii.tolower (Ascii.tolower c) = Ascii.tolower c.
Proof. unfold Ascii.tolower, Ascii.isupper. ncases. Qed.

Lemma basic_latin_laws : UnicodeLaws basic_latin.
Proof.
  split; simpl.
  - done.
  - intros c. unfold Py.isspace, Ascii.isdigit. ncases.
  - intros c H. unfold Ascii.isalnum. rewrite H. apply orb_true_r.
  - done.
  - intros s c [c' [-> _]]%list_elem_of_fmap. by rewrite ascii_tolower_idemp.
  - intros s H. induction s as [|c s IH]; [done|]. simpl. f_equal.
    + specialize (H c (list_elem_of_here _ _)). by injection H.
    + apply IH. intros c' Hc'. apply H. by right.
  - intros p. apply N.eqb_refl.
  - intros p c. unfold Ascii.tolower, Ascii.isdigit, Ascii.isupper. ncases.
  - intros p c Hc.
    unfold Ascii.tolower, Ascii.isalpha, Ascii.isupper, Ascii.islower. ncases.
Qed.

(** ** Facts about the string operations *)

Section PyFacts.

Lemma startswith_spec s p : Py.startswith s p = true ↔ ∃ t, s = p ++ t.
Proof.
  revert s. induction p as [|a p IH]; intros s; simpl.
  - split; [intros _; by exists s|done].
  - destruct s as [|c s]; simpl.
    + split; [done|]. by intros [t ?].
    + rewrite andb_true_iff, N.eqb_eq, IH. split.
      * intros [-> [t ->]]. eauto.
      * intros [t [= -> ->]]. eauto.
Qed.


Lemma contains_spec s sub :
  Py.contains s sub = true ↔ ∃ pre post, s = pre ++ sub ++ post.
Proof.
  induction s as [|c s IH]; simpl.
  - rewrite orb_false_r, startswith_spec. split.
    + intros [t ->]. by exists [], t.
    + intros [pre [post H]]. destruct pre; simpl in *; [eauto|done].
  - rewrite orb_true_iff, startswith_spec, IH. split.
    + intros [[t ->]|[pre [post ->]]]; [by exists [], t|by exists (c :: pre), post].
    + intros [[|c' pre] [post H]]; simpl in *; [eauto|].
      injection H as -> ->. eauto.
Qed.

Lemma replace_from_absent old new s :
  Py.contains s old = false → Py.replace_from old new 0 s = s.
Proof.
  induction s as [|c s IH]; [done|]. simpl.
  intros [H1 H2]%orb_false_elim.
  destruct old as [|a old]; [done|]. simpl in *. rewrite H1. f_equal. auto.
Qed.

Lemma replace_absent s old new :
  old ≠ [] → Py.contains s old = false → Py.replace s old new = s.
Proof. destruct old; [done|]. intros _. apply replace_from_absent. Qed.

Lemma replace_from_elem old k s c :
  c ∈ Py.replace_from old [] k s → c ∈ s.
Proof.
  revert k. induction s as [|a s IH]; intros k; simpl; [done|].
  destruct k as [|k].
  - case_match; simpl.
    + intros ?%IH. by right.
    + intros [->|?%IH]%elem_of_cons; [by left|by right].
  - intros ?%IH. by right.
Qed.

Lemma replace_elem s old c : c ∈ Py.replace s old [] → c ∈ s.
Proof.
  destruct old as [|a old]; simpl.
  - rewrite !list_elem_of_In, in_flat_map. by intros [x [Hx [->|[]]]].
  - apply replace_from_elem.
Qed.

(** Removing a character and counting it. *)
Lemma replace_char_filter s a :
  Py.replace s [a] [] = List.filter (λ c, negb (a =? c)%N) s.
Proof.
  simpl. induction s as [|c s IH]; [done|]. simpl.
  rewrite andb_true_r. destruct (a =? c)%N; simpl; by rewrite IH.
Qed.

Lemma count_char_filter s a :
  Py.count s [a] = length (List.filter (λ c, (a =? c)%N) s).
Proof.
  simpl. induction s as [|c s IH]; [done|]. simpl.
  rewrite andb_true_r. destruct (a =? c)%N; simpl; by rewrite IH.
Qed.

Lemma split_nonempty s sep : Py.split s sep ≠ [].
Proof. destruct s as [|c s]; simpl; [done|]. repeat case_match; done. Qed.

Lemma getitem_0 {A} (x : A) l : Py.getitem (x :: l) 0 = Ok x.
Proof. done. Qed.

Lemma getitem_last {A} (l : list A) x : Py.getitem (l ++ [x]) (-1) = Ok x.
Proof.
  unfold Py.getitem. rewrite length_app. simpl.
  replace (Z.of_nat (length l + 1) + -1)%Z with (Z.of_nat (length l)) by lia.
  destruct (Z.ltb_spec (Z.of_nat (length l)) 0); [lia|].
  rewrite Nat2Z.id, lookup_app_r by done. by rewrite Nat.sub_diag.
Qed.

Lemma setitem_last {A} (l : list A) x y :
  Py.setitem (l ++ [x]) (-1) y = Ok (l ++ [y]).
Proof.
  unfold Py.setitem. rewrite length_app. simpl.
  replace (Z.of_nat (length l + 1) + -1)%Z with (Z.of_nat (length l)) by lia.
  destruct (Z.ltb_spec (Z.of_nat (length l)) 0); [lia|].
  destruct (Z.leb_spec (Z.of_nat (length l + 1)) (Z.of_nat (length l))); [lia|].
  simpl. rewrite Nat2Z.id. f_equal.
  rewrite insert_app_r_alt by done. by rewrite Nat.sub_diag.
Qed.

(** An email splits into a stem, empty or ending in a dot, and a last
    segment without dot. *)
Lemma split_last s sep :
  ∃ segs stem seg,
    Py.split s sep = segs ++ [seg] ∧ s = stem ++ seg ∧ (sep ∉ seg) ∧
    (stem = [] ∨ (∃ stem', stem = stem' ++ [sep])) ∧
    ∀ x, Py.join [sep] (segs ++ [x]) = stem ++ x.
Proof.
  induction s as [|c s (segs & stem & seg & Hs & -> & Hseg & Hstem & Hj)]; simpl.
  - exists [], [], []. split_and!; [done|done|by apply not_elem_of_nil|by left|done].
  - rewrite Hs. destruct (N.eqb_spec c sep) as [->|Hc].
    + exists ([] :: segs), (sep :: stem), seg.
      split_and!; [done|done|done| |].
      * right. destruct Hstem as [->|[stem' ->]]; [by exists []|by exists (sep :: stem')].
      * intros x. simpl. rewrite Hj. by destruct segs.
    + destruct segs as [|seg0 segs]; simpl in *.
      * exists [], [], (c :: seg). specialize (Hj []). simpl in Hj.
        destruct stem; [|done]. simpl.
        split_and!; [done|done| |by left|done].
        intros [?|?]%elem_of_cons; done.
      * exists ((c :: seg0) :: segs), (c :: stem), seg.
        split_and!; [done|done|done| |].
        -- right. destruct Hstem as [->|[stem' ->]].
           ++ specialize (Hj []). destruct segs; simpl in Hj.
              ** by destruct seg0.
              ** by destruct seg0.
           ++ by exists (c :: stem').
        -- intros x. specialize (Hj x). destruct segs; simpl in *; by rewrite <- Hj.
Qed.

Lemma lstrip_id c s : Py.isspace c = false → Py.lstrip (c :: s) = c :: s.
Proof. intros H. simpl. by rewrite H. Qed.

Lemma strip_id c s d :
  Py.isspace c = false → Py.isspace d = false →
  last (c :: s) = Some d → Py.strip (c :: s) = c :: s.
Proof.
  intros Hc Hd Hl. unfold Py.strip, Py.rstrip. rewrite lstrip_id by done.
  destruct (last_Some (c :: s) d) as [[l' E] _]; [done|]. rewrite E.
  rewrite reverse_snoc, lstrip_id by done.
  by rewrite <- reverse_snoc, reverse_involutive.
Qed.

Lemma forallb_ascii s :
  forallb (λ c, (c <? 128)%N) s = true → Forall (λ c, (c < 128)%N) s.
Proof.
  rewrite forallb_forall, Forall_forall.
  intros H c Hc%list_elem_of_In%H. by apply N.ltb_lt.
Qed.

End PyFacts.

(** ** The email normalizer *)

Section Emails.
Context {U : Unicode}.

Lemma last_segment_spec e :
  ∃ stem,
    e = stem ++ last_segment e ∧ (46%N ∉ last_segment e) ∧
    (stem = [] ∨ (∃ stem', stem = stem' ++ [46%N])) ∧
    ∀ acc, clean_email_step acc e =
           Ok (acc ++ [stem ++ clean_last_segment (last_segment e)]).
Proof.
  unfold last_segment, clean_email_step.
  destruct (split_last e 46%N) as (segs & stem & seg & Hs & He & Hseg & Hstem & Hj).
  rewrite Hs, last_snoc. simpl. exists stem. split_and!; [done..|].
  intros acc. rewrite getitem_last. simpl.
  rewrite setitem_last. simpl. do 3 f_equal.
  exact (Hj (clean_last_segment seg)).
Qed.

Lemma clean_email_step_spec acc e :
  ∃ e', clean_email_step acc e = Ok (acc ++ [e']) ∧ email_cleaned e e'.
Proof.
  destruct (last_segment_spec e) as (stem & He & _ & _ & Hstep).
  eexists. split; [apply Hstep|]. by exists stem.
Qed.

Lemma clean_email_loop_spec emails : ∀ acc,
  ∃ out, clean_email_loop acc emails = Ok (acc ++ out) ∧
         Forall2 email_cleaned emails out.
Proof.
  induction emails as [|e emails IH]; intros acc; simpl.
  - exists []. by rewrite app_nil_r.
  - destruct (clean_email_step_spec acc e) as (e' & -> & He). simpl.
    destruct (IH (acc ++ [e'])) as (out & -> & Hout).
    exists (e' :: out). split; [by rewrite <- app_assoc|by constructor].
Qed.

Lemma clean_emails_spec emails :
  ∃ out, clean_emails emails = Ok out ∧ Forall2 email_cleaned emails out.
Proof.
  unfold clean_emails. destruct emails as [|e emails]; simpl.
  - by exists [].
  - apply (clean_email_loop_spec (e :: emails) []).
Qed.

(** C8: the email normalizer returns as many emails as it was given, the
    email at each position being the cleaned form of the input at that
    position: nothing is dropped, merged or reordered. *)
Theorem clean_emails_same_count_and_order (emails : list str) :
  ∃ out,
    clean_emails emails = Ok out ∧
    length out = length emails ∧
    Forall2 email_cleaned emails out.
Proof.
  destruct (clean_emails_spec emails) as (out & H & HF).
  exists out. split_and!; [done| |done]. symmetry. by eapply Forall2_length.
Qed.

Context {L : UnicodeLaws U}.

(** C1: on the two emails of the docstring the normalizer changes
    nothing, because only the segment after the last dot is cleaned. *)
Theorem clean_emails_docstring_examples :
  clean_emails [py "info@company.web.bg"] = Ok [py "info@company.web.bg"] ∧
  clean_emails [py "contact@www.domain.com"] = Ok [py "contact@www.domain.com"].
Proof.
  assert (∀ e seg, last_segment e = seg → clean_last_segment seg = seg →
                   clean_emails [e] = Ok [e]) as Hfix.
  { intros e seg Hseg Hclean.
    destruct (last_segment_spec e) as (stem & He & _ & _ & Hs).
    unfold clean_emails. cbn [Py.truthy negb clean_email_loop].
    rewrite Hs, Hseg, Hclean, <- Hseg, <- He. done. }
  split.
  - apply (Hfix _ (py "bg")); [done|].
    unfold clean_last_segment.
    rewrite lower_ascii by (by repeat constructor). done.
  - apply (Hfix _ (py "com")); [done|].
    unfold clean_last_segment.
    rewrite lower_ascii by (by repeat constructor). done.
Qed.

Lemma suffix_of_last_segment (stem r stem2 seg2 : str) :
  stem ++ r = stem2 ++ seg2 → 46%N ∉ seg2 →
  (stem = [] ∨ (∃ stem', stem = stem' ++ [46%N])) →
  ∃ pre, r = pre ++ seg2.
Proof.
  intros E Hseg [->|[stem' ->]]; [by exists stem2|].
  apply app_eq_inv in E as [(k & E1 & E2)|(k & E1 & E2)]; [|by exists k].
  destruct (decide (k = [])) as [->|Hk]; [by exists []|].
  destruct (exists_last Hk) as (k' & c & ->).
  rewrite app_assoc in E1. apply app_inj_tail in E1 as [_ <-].
  destruct Hseg. rewrite E2, <- app_assoc.
  apply elem_of_app. right. by left.
Qed.

Lemma clean_last_segment_fixed seg :
  (∀ c, c ∈ seg → lower [c] = [c]) →
  Py.contains seg (py "web") = false → Py.contains seg (py "www") = false →
  clean_last_segment seg = seg.
Proof.
  intros Hl Hweb Hwww. unfold clean_last_segment.
  rewrite lower_pointwise by done.
  rewrite (replace_absent seg (py "web")) by done.
  by rewrite replace_absent.
Qed.

Lemma clean_last_segment_lowered seg c :
  c ∈ clean_last_segment seg → lower [c] = [c].
Proof.
  unfold clean_last_segment.
  intros ?%replace_elem%replace_elem. by eapply lower_lowered.
Qed.

Lemma email_cleaned_stable e e' e'' :
  email_cleaned e e' → email_cleaned e' e'' →
  Py.contains (last_segment e') (py "web") = false →
  Py.contains (last_segment e') (py "www") = false →
  e'' = e'.
Proof.
  intros (stem & He & He') (stem2 & He2 & ->) Hweb Hwww.
  rewrite He2 at 2. f_equal.
  destruct (last_segment_spec e) as (stem0 & E0 & _ & Hstem0 & _).
  destruct (last_segment_spec e') as (stem3 & E3 & Hseg3 & _ & _).
  assert (stem = stem0) as ->.
  { rewrite E0 in He at 1. by apply app_inv_tail in He. }
  rewrite He' in E3 at 1.
  destruct (suffix_of_last_segment _ _ _ _ E3 Hseg3 Hstem0) as [pre Hpre].
  apply clean_last_segment_fixed; [|done..].
  intros c Hc. apply (clean_last_segment_lowered (last_segment e)).
  rewrite Hpre. apply elem_of_app. by right.
Qed.

Lemma clean_emails_stable emails out :
  clean_emails emails = Ok out →
  (∀ e, e ∈ out →
        Py.contains (last_segment e) (py "web") = false ∧
        Py.contains (last_segment e) (py "www") = false) →
  clean_emails out = Ok out.
Proof.
  intros H Hout.
  destruct (clean_emails_spec emails) as (out0 & H0 & HF).
  rewrite H in H0. injection H0 as <-.
  destruct (clean_emails_spec out) as (out' & -> & HF'). f_equal.
  clear H. revert out' HF'.
  induction HF as [|e e' emails out He HF IH]; intros out' HF'.
  - by inversion HF'.
  - inversion HF' as [|? e'' ? out'' He' HF'']; subst. f_equal.
    + destruct (Hout e') as [? ?]; [by left|].
      by eapply email_cleaned_stable.
    + apply IH; [|done]. intros e0 ?. apply Hout. by right.
Qed.

End Emails.

(** ** Facts about the matcher *)

Section ReFacts.
Context {U : Unicode}.

Lemma rmatch_rep ic lo hi r prev s k :
  Re.rmatch ic (Rep lo hi r) prev s k =
  match hi with
  | O => match lo with O => k prev s | S _ => None end
  | S hi' =>
    match Re.rmatch ic r prev s
            (λ prev' s', Re.rmatch ic (Rep (pred lo) hi' r) prev' s' k) with
    | Some rest => Some rest
    | None => match lo with O => k prev s | S _ => None end
    end
  end.
Proof. by destruct hi. Qed.

Lemma rmatch_seq ic r1 r2 prev s k :
  Re.rmatch ic (Seq r1 r2) prev s k =
  Re.rmatch ic r1 prev s (λ prev' s', Re.rmatch ic r2 prev' s' k).
Proof. done. Qed.

Lemma rmatch_lit ic p prev s k :
  Re.rmatch ic (Lit p) prev s k =
  match s with
  | c :: s' => if Re.lit_match ic p c then k (Some c) s' else None
  | [] => None
  end.
Proof. done. Qed.

Lemma rmatch_group ic r prev s k :
  Re.rmatch ic (Group r) prev s k = Re.rmatch ic r prev s k.
Proof. done. Qed.

(** An alternation matches when its right alternative does, whatever
    the left one. *)
Lemma rmatch_alt_r ic r1 r2 prev s k :
  is_Some (Re.rmatch ic r2 prev s k) →
  is_Some (Re.rmatch ic (Alt r1 r2) prev s k).
Proof. simpl. by destruct (Re.rmatch ic r1 prev s k). Qed.

Lemma rmatch_wordb ic prev s k :
  Re.rmatch ic WordB prev s k =
  if Re.at_boundary prev s then k prev s else None.
Proof. done. Qed.

(** A successful [\d{lo,hi}] has consumed between [lo] and [hi] decimal
    digits before the continuation succeeded. *)
Lemma rmatch_rep_digit ic hi : ∀ lo prev s k x,
  Re.rmatch ic (Rep lo hi Digit) prev s k = Some x →
  ∃ ds rest prev',
    s = ds ++ rest ∧ Forall (λ c, isdecimal c = true) ds ∧
    lo ≤ length ds ≤ hi ∧ k prev' rest = Some x.
Proof.
  induction hi as [|hi IH]; intros lo prev s k x; rewrite rmatch_rep.
  - destruct lo; [|done]. intros H. exists [], s, prev.
    split_and!; simpl; try done; lia.
  - assert (match lo with O => k prev s | S _ => None end = Some x →
            ∃ ds rest prev', s = ds ++ rest ∧
              Forall (λ c, isdecimal c = true) ds ∧
              lo ≤ length ds ≤ S hi ∧ k prev' rest = Some x) as Hskip.
    { destruct lo; [|done]. intros H. exists [], s, prev.
      split_and!; simpl; try done; lia. }
    remember (λ prev' s', Re.rmatch ic (Rep (pred lo) hi Digit) prev' s' k)
      as k' eqn:Hk'.
    simpl Re.rmatch. destruct s as [|c s]; [exact Hskip|].
    destruct (isdecimal c) eqn:Hc; [|exact Hskip].
    destruct (k' (Some c) s) eqn:E; [|exact Hskip]. subst k'.
    intros [= ->]. apply IH in E as (ds & rest & prev' & -> & Hds & Hlen & Hk).
    exists (c :: ds), rest, prev'.
    split_and!; simpl; try done; try lia. by constructor.
Qed.

Lemma fullmatch_local s :
  Re.fullmatch local_re s = true →
  ∃ ds, s = 48%N :: ds ∧ Forall (λ c, isdecimal c = true) ds ∧
        8 ≤ length ds ≤ 9.
Proof.
  unfold Re.fullmatch, local_re. rewrite rmatch_seq, rmatch_lit.
  destruct s as [|c s]; [done|]. unfold Re.lit_match.
  destruct (N.eqb_spec 48 c) as [<-|]; [|done].
  case_match eqn:E; [|done]. intros _.
  apply rmatch_rep_digit in E as (ds & rest & prev' & -> & Hds & Hlen & Hk).
  destruct rest; [|done]. rewrite app_nil_r. by exists ds.
Qed.

Lemma fullmatch_postal v : Re.fullmatch postal_re v = four_digits v.
Proof.
  apply eq_true_iff_eq. unfold four_digits.
  rewrite andb_true_iff, Nat.eqb_eq, forallb_forall. split.
  - unfold Re.fullmatch, postal_re. case_match eqn:E; [|done]. intros _.
    apply rmatch_rep_digit in E as (ds & rest & prev' & -> & Hds & Hlen & Hk).
    destruct rest; [|done]. rewrite app_nil_r. split; [lia|].
    intros c Hc%list_elem_of_In. by eapply Forall_forall in Hds.
  - intros [Hlen Hall].
    destruct v as [|a [|b [|c [|d [|? ?]]]]]; try done.
    unfold Re.fullmatch, postal_re. simpl.
    rewrite !Hall; [done|simpl; tauto..].
Qed.

Lemma sub_from_unfold r repl prev s :
  Re.sub_from r repl prev 0 s =
  match Re.match_here false r prev s with
  | Some rest =>
    repl ++
      match s with
      | [] => []
      | c :: s' =>
        match length s - length rest with
        | O => c :: Re.sub_from r repl (Some c) 0 s'
        | S n' => Re.sub_from r repl (Some c) n' s'
        end
      end
  | None =>
    match s with
    | [] => []
    | c :: s' => c :: Re.sub_from r repl (Some c) 0 s'
    end
  end.
Proof. by destruct s. Qed.

(** [re.sub(r'[^\d+]', '', s)] keeps the digits and the plus signs. *)
Lemma sub_junk s : Re.sub junk_re [] s = List.filter phone_char s.
Proof.
  unfold Re.sub. generalize (@None char).
  induction s as [|c s IH]; intros prev; [done|].
  rewrite sub_from_unfold. unfold Re.match_here, junk_re. simpl Re.rmatch.
  unfold Re.lit_match. rewrite orb_false_r. fold (phone_char c).
  simpl List.filter. destruct (phone_char c); simpl negb; cbv iota.
  - by rewrite IH.
  - replace (length (c :: s) - length s) with 1 by (simpl; lia).
    simpl. apply IH.
Qed.

Lemma split_from_nonempty ic r s : ∀ prev skip,
  Re.split_from ic r prev skip s ≠ [].
Proof.
  induction s as [|c s IH]; intros prev skip.
  - destruct skip; simpl; [by case_match|done].
  - destruct skip; simpl; [|apply IH]. case_match; [done|].
    specialize (IH (Some c) 0). by destruct (Re.split_from _ _ _ _ _).
Qed.

Lemma split_getitem_0 ic r s :
  ∃ x, Py.getitem (Re.split ic r s) 0 = Ok x.
Proof.
  unfold Re.split. pose proof (split_from_nonempty ic r s None 0).
  destruct (Re.split_from _ _ _ _ _) as [|x l]; [done|]. by exists x.
Qed.

Lemma split_from_unfold ic r prev s :
  Re.split_from ic r prev 0 s =
  match Re.match_here ic r prev s with
  | Some rest =>
    [] :: take (length s - length rest) s ::
      match s with
      | [] => [[]]
      | c :: s' =>
        match length s - length rest with
        | O => Re.cons_head c (Re.split_from ic r (Some c) 0 s')
        | S n' => Re.split_from ic r (Some c) n' s'
        end
      end
  | None =>
    match s with
    | [] => [[]]
    | c :: s' => Re.cons_head c (Re.split_from ic r (Some c) 0 s')
    end
  end.
Proof. by destruct s. Qed.

Context {L : UnicodeLaws U}.

Lemma isdecimal_plus : isdecimal 43%N = false.
Proof. by rewrite isdecimal_low. Qed.

Lemma ci_match_uncased_ne p c :
  uncased c = true → uncased p = false → ci_match p c = false.
Proof.
  intros Hc Hp.
  assert (p ≠ c) as Hne by (intros ->; congruence).
  apply N.eqb_neq in Hne. unfold uncased in Hc.
  apply orb_prop in Hc as [Hc|[Hc1%N.ltb_lt Hc2%negb_true_iff]%andb_prop].
  - by rewrite ci_match_decimal.
  - by rewrite ci_match_uncased.
Qed.

Lemma marker_no_match prev s :
  (∀ c, head s = Some c → uncased c = true) →
  Re.match_here true marker_re prev s = None.
Proof.
  intros H. destruct s as [|c s]; [done|].
  specialize (H c eq_refl).
  unfold Re.match_here, marker_re. simpl. unfold Re.lit_match.
  rewrite !(ci_match_uncased_ne _ c); try done;
    unfold uncased; by rewrite isdecimal_low.
Qed.

(** Without a marker, [re.split] returns the text in one piece. *)
Lemma split_no_marker s :
  Forall (λ c, uncased c = true) s → Re.split true marker_re s = [s].
Proof.
  intros H. unfold Re.split. generalize (@None char).
  induction H as [|c s Hc Hs IH]; intros prev.
  - done.
  - rewrite split_from_unfold, marker_no_match.
    + by rewrite IH.
    + by intros ? [= <-].
Qed.

Lemma phone_char_uncased c : phone_char c = true → uncased c = true.
Proof.
  unfold phone_char, uncased.
  intros [->|<-%N.eqb_eq]%orb_prop; [done|]. apply orb_true_r.
Qed.

(** A text that starts with the Cyrillic marker is cut at its start. *)
Lemma split_at_cyr_tel rest :
  Py.getitem (Re.split true marker_re (cyr_tel ++ rest)) 0 = Ok [].
Proof.
  unfold Re.split. rewrite split_from_unfold.
  assert (is_Some (Re.match_here true marker_re None (cyr_tel ++ rest))) as [r ->];
    [|done].
  unfold Re.match_here, marker_re. rewrite rmatch_group.
  do 3 apply rmatch_alt_r.
  simpl. unfold Re.lit_match. rewrite !ci_match_refl. done.
Qed.

End ReFacts.

(** ** The phone normalizer *)

Section Phones.
Context {U : Unicode}.

Lemma bind_Ok {A B} (x : A) (f : A → result B) : (Ok x ≫= f) = f x.
Proof. done. Qed.

Lemma clean_phone_number_cons p ps :
  clean_phone_number (p :: ps) =
  clean_phone_loop [] (p :: ps) ≫= λ acc, Ok (list_set acc).
Proof. done. Qed.

Lemma clean_phone_loop_cons acc p ps :
  clean_phone_loop acc (p :: ps) =
  clean_phone_step acc p ≫= λ acc', clean_phone_loop acc' ps.
Proof. done. Qed.

Lemma clean_phone_loop_nil acc : clean_phone_loop acc [] = Ok acc.
Proof. done. Qed.

Lemma list_set_NoDup l : NoDup (list_set l).
Proof. unfold list_set. apply NoDup_elements. Qed.

Lemma elem_of_list_set x l : x ∈ list_set l ↔ x ∈ l.
Proof. unfold list_set. by rewrite elem_of_elements, elem_of_list_to_set. Qed.

Lemma filter_phone_char s : Forall (λ c, phone_char c = true) (List.filter phone_char s).
Proof.
  apply Forall_forall. intros c Hc%list_elem_of_In%filter_In. tauto.
Qed.

Lemma phone_char_plus : phone_char 43%N = true.
Proof. unfold phone_char. apply orb_true_r. Qed.

Lemma filter_id {A} (f : A → bool) l :
  Forall (λ x, f x = true) l → List.filter f l = l.
Proof. induction 1 as [|x l Hx _ IH]; simpl; [done|]. by rewrite Hx, IH. Qed.

Context {L : UnicodeLaws U}.

(** After a leading plus sign, characters of a phone among which no
    further plus sign occurs are digits. *)
Lemma one_plus_digits t :
  Forall (λ c, phone_char c = true) t →
  length (List.filter (λ c, (43 =? c)%N) t) = 0 →
  Forall (λ c, isdecimal c = true) t.
Proof.
  induction 1 as [|c t Hc _ IH]; simpl; [done|].
  destruct (N.eqb_spec 43 c) as [->|Hne]; simpl; [done|].
  intros H. constructor; [|by apply IH].
  apply orb_prop in Hc as [?|?%N.eqb_eq]; done.
Qed.

Lemma digits_phone_char ds :
  Forall (λ c, isdecimal c = true) ds → Forall (λ c, phone_char c = true) ds.
Proof.
  intros H. eapply Forall_impl; [done|].
  intros c Hc. unfold phone_char. by rewrite Hc.
Qed.

Lemma digits_no_plus ds :
  Forall (λ c, isdecimal c = true) ds →
  List.filter (λ c, (43 =? c)%N) ds = [].
Proof.
  induction 1 as [|c ds Hc _ IH]; simpl; [done|].
  destruct (N.eqb_spec 43 c) as [<-|]; [|done].
  rewrite isdecimal_plus in Hc. done.
Qed.

Lemma clean_phone_step_spec acc phone :
  clean_phone_step acc phone = Ok acc ∨
  ∃ p, clean_phone_step acc phone = Ok (acc ++ [p]) ∧ plus_digits p.
Proof.
  unfold clean_phone_step.
  destruct (split_getitem_0 true marker_re
              (Py.strip (Py.replace phone [160%N] [32%N]))) as [x ->].
  cbn [mbind result_bind]. cbv zeta. rewrite !sub_junk.
  pose proof (filter_phone_char x) as Hx.
  set (p1 := List.filter phone_char x) in *.
  set (p2 := if 1 <? Py.count p1 (py "+")
             then py "+" ++ Py.replace p1 (py "+") [] else p1).
  assert (Forall (λ c, phone_char c = true) p2 ∧
          length (List.filter (λ c, (43 =? c)%N) p2) ≤ 1) as [Hp2 Hplus].
  { subst p2. change (py "+") with [43%N].
    rewrite count_char_filter, replace_char_filter.
    destruct (Nat.ltb_spec 1 (length (List.filter (λ c, (43 =? c)%N) p1))).
    - split.
      + constructor; [apply phone_char_plus|]. apply Forall_forall.
        intros c [Hc _]%list_elem_of_In%filter_In.
        eapply Forall_forall in Hx; [done|by apply list_elem_of_In].
      + simpl. apply le_n_S, Nat.le_0_r, length_zero_iff_nil.
        clear. induction p1 as [|c p1 IH]; simpl; [done|].
        destruct (43 =? c)%N eqn:E; simpl; [done|]. by rewrite E.
    - split; [done|lia]. }
  clearbody p2. clear p1 Hx x.
  assert (∀ t, p2 = 43%N :: t → Forall (λ c, isdecimal c = true) t) as Htail.
  { intros t ->. apply Forall_cons in Hp2 as [_ Ht]. simpl in Hplus.
    apply one_plus_digits; [done|lia]. }
  set (p3 := if Py.startswith p2 (py "+3590") then py "+359" ++ drop 5 p2
             else if Re.fullmatch local_re p2 then py "+359" ++ drop 1 p2
             else p2).
  assert (∀ t, p3 = 43%N :: t → Forall (λ c, isdecimal c = true) t) as Hp3.
  { subst p3. destruct (Py.startswith p2 (py "+3590")) eqn:E1.
    - apply startswith_spec in E1 as [t ->].
      intros t' [= <-]. specialize (Htail _ eq_refl).
      change (drop 5 (py "+3590" ++ t)) with t.
      apply Forall_cons in Htail as [H3 Htail].
      apply Forall_cons in Htail as [H5 Htail].
      apply Forall_cons in Htail as [H9 Htail].
      apply Forall_cons in Htail as [_ Htail].
      by repeat constructor.
    - destruct (Re.fullmatch local_re p2) eqn:E2; [|done].
      apply fullmatch_local in E2 as (ds & -> & Hds & _).
      intros t' [= <-]. simpl.
      repeat (constructor; [by rewrite isdecimal_low|]). done. }
  clearbody p3.
  destruct (Nat.ltb_spec (length p3) 10); cbn [orb]; [by left|].
  destruct (Py.startswith p3 (py "+")) eqn:E; cbn [negb]; [|by left].
  right. exists p3. split; [done|].
  apply startswith_spec in E as [t ->]. exists t.
  change (py "+" ++ t) with (43%N :: t) in *.
  split_and!; [done|by apply Hp3|]. by apply le_S_n.
Qed.

Lemma clean_phone_loop_spec phones : ∀ acc,
  Forall plus_digits acc →
  ∃ out, clean_phone_loop acc phones = Ok out ∧ Forall plus_digits out.
Proof.
  induction phones as [|phone phones IH]; intros acc Hacc; simpl.
  - by exists acc.
  - destruct (clean_phone_step_spec acc phone) as [->|(p & -> & Hp)]; simpl.
    + by apply IH.
    + apply IH. apply Forall_app. split; [done|by constructor].
Qed.

(** What [clean_phone_number] returns, for any input. *)
Lemma clean_phone_number_spec phones :
  ∃ out, clean_phone_number phones = Ok out ∧
         NoDup out ∧ Forall plus_digits out.
Proof.
  unfold clean_phone_number. destruct phones as [|phone phones]; simpl negb; cbv iota.
  - exists []. split_and!; [done|constructor|done].
  - destruct (clean_phone_loop_spec (phone :: phones) []) as (acc & -> & Hacc);
      [done|].
    cbn [mbind result_bind]. exists (list_set acc).
    split; [reflexivity|]. split; [apply list_set_NoDup|].
    rewrite Forall_forall in Hacc |- *.
    intros p Hp. apply Hacc. by apply (proj1 (elem_of_list_set p acc)).
Qed.

End Phones.

Section PhoneClaims.
Context {U : Unicode} {L : UnicodeLaws U}.

Lemma contains_char_absent s c : c ∉ s → Py.contains s [c] = false.
Proof.
  induction s as [|a s IH]; [done|].
  intros [Ha Hs]%not_elem_of_cons. simpl.
  rewrite IH by done. rewrite andb_true_r, orb_false_r. by apply N.eqb_neq.
Qed.

Lemma digit_not_space c : isdecimal c = true → Py.isspace c = false.
Proof.
  intros H. destruct (Py.isspace c) eqn:E; [|done].
  apply isdecimal_space in E. congruence.
Qed.

Lemma fullmatch_local_plus t : Re.fullmatch local_re (43%N :: t) = false.
Proof. unfold Re.fullmatch, local_re. by rewrite rmatch_seq, rmatch_lit. Qed.

(** A phone that is already a plus sign and digits, without a zero after
    [+359], goes through the loop body unchanged. *)
Lemma clean_phone_step_fixed acc p :
  plus_digits p → Py.startswith p (py "+3590") = false →
  clean_phone_step acc p = Ok (acc ++ [p]).
Proof.
  intros (ds & -> & Hds & Hlen) H0.
  assert (Forall (λ c, phone_char c = true) (43%N :: ds)) as Hpc.
  { constructor; [apply phone_char_plus|by apply digits_phone_char]. }
  unfold clean_phone_step.
  rewrite (replace_absent (43%N :: ds) [160%N]); [|done|].
  2:{ apply contains_char_absent. intros [?|Hin]%elem_of_cons; [done|].
      rewrite Forall_forall in Hds. apply Hds, digit_not_space in Hin. done. }
  assert (Py.strip (43%N :: ds) = 43%N :: ds) as ->.
  { destruct (exists_last (l:=ds)) as (ds' & d & ->);
      [intros ->; simpl in Hlen; lia|].
    apply (strip_id _ _ d); [done| |by rewrite app_comm_cons, last_snoc].
    apply Forall_app in Hds as [_ Hd]. apply Forall_cons in Hd as [Hd _].
    by apply digit_not_space. }
  rewrite split_no_marker, getitem_0.
  2:{ eapply Forall_impl; [done|]. apply phone_char_uncased. }
  cbn [mbind result_bind]. cbv zeta.
  rewrite !sub_junk, !filter_id by done.
  change (py "+") with [43%N].
  rewrite count_char_filter. cbn [List.filter]. rewrite N.eqb_refl.
  rewrite digits_no_plus by done. change (1 <? length [43%N]) with false.
  cbv iota. rewrite H0, fullmatch_local_plus.
  match goal with
  | |- context [?n <? 10] => destruct (Nat.ltb_spec n 10) as [Hlt|_]
  end.
  { cbn [length] in Hlt. unfold char in *. lia. }
  cbn [Py.startswith]. by rewrite N.eqb_refl.
Qed.

Lemma clean_phone_loop_fixed phones : ∀ acc,
  Forall (λ p, plus_digits p ∧ Py.startswith p (py "+3590") = false) phones →
  clean_phone_loop acc phones = Ok (acc ++ phones).
Proof.
  induction phones as [|p phones IH]; intros acc H; simpl.
  - by rewrite app_nil_r.
  - apply Forall_cons in H as [[Hp H0] H].
    rewrite clean_phone_step_fixed by done. cbn [mbind result_bind].
    rewrite IH by done. by rewrite <- app_assoc.
Qed.

Lemma clean_phone_number_stable phones out :
  clean_phone_number phones = Ok out →
  (∀ p, p ∈ out → Py.startswith p (py "+3590") = false) →
  ∃ out', clean_phone_number out = Ok out' ∧ out' ≡ₚ out.
Proof.
  intros H H0.
  destruct (clean_phone_number_spec phones) as (out0 & E & Hnd & Hout).
  rewrite H in E. injection E as <-.
  unfold clean_phone_number. destruct out as [|p out]; [by exists []|].
  cbn [Py.truthy negb]. rewrite clean_phone_loop_fixed.
  - cbn [mbind result_bind app]. eexists. split; [done|].
    unfold list_set. by apply elements_list_to_set.
  - rewrite Forall_forall in Hout |- *. intros q Hq. split; auto.
Qed.

End PhoneClaims.

Section PhoneExamples.
Context {U : Unicode} {L : UnicodeLaws U}.

Lemma ascii_uncased_forall s :
  forallb (λ c, (c <? 128)%N && negb (Ascii.isalpha c)) s = true →
  Forall (λ c, uncased c = true) s.
Proof.
  rewrite forallb_forall, Forall_forall. intros H c Hc%list_elem_of_In.
  unfold uncased. rewrite (H c Hc). apply orb_true_r.
Qed.

Lemma filter_phone_char_low s :
  forallb (λ c, (c <? 1632)%N) s = true →
  List.filter phone_char s =
  List.filter (λ c, Ascii.isdigit c || (43 =? c)%N) s.
Proof.
  rewrite forallb_forall. intros H. apply filter_ext_in. intros c Hc.
  unfold phone_char. rewrite isdecimal_low; [done|]. by apply N.ltb_lt, H.
Qed.

Lemma docstring_phone_1 :
  clean_phone_step [] (py "+359 2 962 53 96") = Ok [py "+35929625396"].
Proof.
  unfold clean_phone_step.
  change (Py.strip (Py.replace (py "+359 2 962 53 96") [160%N] [32%N]))
    with (py "+359 2 962 53 96").
  rewrite split_no_marker by (by apply ascii_uncased_forall).
  rewrite getitem_0. cbn [mbind result_bind]. cbv zeta.
  rewrite !sub_junk, !filter_phone_char_low by done.
  change (List.filter _ (py "+359 2 962 53 96")) with (43%N :: py "35929625396").
  vm_compute. reflexivity.
Qed.

Lemma docstring_phone_2 acc :
  clean_phone_step acc (cyr_tel ++ py ".: 032 632 111") = Ok acc.
Proof.
  unfold clean_phone_step.
  change (Py.strip (Py.replace (cyr_tel ++ py ".: 032 632 111") [160%N] [32%N]))
    with (cyr_tel ++ py ".: 032 632 111").
  rewrite split_at_cyr_tel. cbn [mbind result_bind]. cbv zeta.
  rewrite !sub_junk. vm_compute. reflexivity.
Qed.

Lemma list_set_singleton x : list_set [x] = [x].
Proof.
  unfold list_set. cbn [list_to_set foldr].
  rewrite (right_id_L ∅ (∪)). apply elements_singleton.
Qed.

(** C2: on the list of the docstring the phone normalizer returns one
    entry, not two: the second candidate starts with the Cyrillic marker,
    is cut at its start and dropped as too short. *)
Theorem clean_phone_number_docstring_example :
  clean_phone_number [py "+359 2 962 53 96"; cyr_tel ++ py ".: 032 632 111"]
  = Ok [py "+35929625396"].
Proof.
  rewrite clean_phone_number_cons, clean_phone_loop_cons.
  rewrite docstring_phone_1, bind_Ok. cbv beta.
  rewrite clean_phone_loop_cons, docstring_phone_2, bind_Ok. cbv beta.
  rewrite clean_phone_loop_nil, bind_Ok. by rewrite list_set_singleton.
Qed.

(** Evaluation of the loop body on a candidate of ASCII characters
    without marker that does not end in the local format. *)
Ltac eval_phone_step :=
  unfold clean_phone_step;
  match goal with
  | |- context [Py.strip (Py.replace ?p ?a ?b)] =>
    let v := eval vm_compute in (Py.strip (Py.replace p a b)) in
    change (Py.strip (Py.replace p a b)) with v
  end;
  (rewrite split_no_marker
     by (apply ascii_uncased_forall; vm_compute; reflexivity));
  rewrite getitem_0; cbn [mbind result_bind]; cbv zeta;
  (rewrite !sub_junk, !filter_phone_char_low by (vm_compute; reflexivity));
  vm_compute; reflexivity.

Lemma clean_phone_number_singleton p q :
  clean_phone_step [] p = Ok [q] → clean_phone_number [p] = Ok [q].
Proof.
  intros H. rewrite clean_phone_number_cons, clean_phone_loop_cons, H, bind_Ok.
  cbv beta. rewrite clean_phone_loop_nil, bind_Ok. by rewrite list_set_singleton.
Qed.

(** A candidate with another country code, and one with twelve digits
    after [+359], are returned as they are. *)
Lemma other_prefix_returned :
  clean_phone_number [py "+123456789"] = Ok [py "+123456789"] ∧
  clean_phone_number [py "+359123456789012"] = Ok [py "+359123456789012"].
Proof. split; apply clean_phone_number_singleton; eval_phone_step. Qed.

(** Each run drops one zero after [+359]. *)
Lemma zero_dropped_per_run :
  clean_phone_number [py "+35900123456789"] = Ok [py "+3590123456789"] ∧
  clean_phone_number [py "+3590123456789"] = Ok [py "+359123456789"].
Proof. split; apply clean_phone_number_singleton; eval_phone_step. Qed.

Lemma clean_emails_singleton e stem seg :
  e = stem ++ seg → last_segment e = seg →
  clean_emails [e] = Ok [stem ++ clean_last_segment seg].
Proof.
  intros He Hseg.
  destruct (last_segment_spec e) as (stem' & He' & _ & _ & Hs).
  assert (stem' = stem) as ->.
  { rewrite Hseg in He'. rewrite He in He' at 1. by apply app_inv_tail in He'. }
  unfold clean_emails. cbn [Py.truthy negb clean_email_loop].
  by rewrite Hs, bind_Ok, Hseg.
Qed.

(** Removing [www] from the last segment can leave [web], which the next
    run removes. *)
Lemma web_left_for_next_run :
  clean_emails [py "a@b.wewwwb"] = Ok [py "a@b.web"] ∧
  clean_emails [py "a@b.web"] = Ok [py "a@b."].
Proof.
  split.
  - rewrite (clean_emails_singleton _ (py "a@b.") (py "wewwwb"))
      by (vm_compute; reflexivity).
    unfold clean_last_segment.
    rewrite lower_ascii by (apply forallb_ascii; vm_compute; reflexivity).
    vm_compute. reflexivity.
  - rewrite (clean_emails_singleton _ (py "a@b.") (py "web"))
      by (vm_compute; reflexivity).
    unfold clean_last_segment.
    rewrite lower_ascii by (apply forallb_ascii; vm_compute; reflexivity).
    vm_compute. reflexivity.
Qed.

(** C3, as amended: every string the phone normalizer returns is a plus
    sign followed by at least nine decimal digits, and no string is
    returned twice.  Neither the country code 359 nor an upper bound on
    the number of digits is checked. *)
Theorem clean_phone_number_plus_digits (phones : list str) :
  ∃ out,
    clean_phone_number phones = Ok out ∧
    NoDup out ∧
    ∀ p, p ∈ out →
      ∃ ds, p = 43%N :: ds ∧ Forall (λ c, isdecimal c = true) ds ∧
            9 ≤ length ds.
Proof.
  destruct (clean_phone_number_spec phones) as (out & H & Hnd & Hout).
  exists out. split_and!; [done..|].
  rewrite Forall_forall in Hout. apply Hout.
Qed.

(** C10: every string the phone normalizer returns has exactly one plus
    sign, at position 0, followed by decimal digits only, and at least
    ten characters; the returned list has no duplicates. *)
Theorem clean_phone_number_shape (phones : list str) :
  ∃ out,
    clean_phone_number phones = Ok out ∧
    NoDup out ∧
    ∀ p, p ∈ out →
      Py.count p (py "+") = 1 ∧
      p !! 0 = Some 43%N ∧
      Forall (λ c, isdecimal c = true) (drop 1 p) ∧
      10 ≤ length p.
Proof.
  destruct (clean_phone_number_spec phones) as (out & H & Hnd & Hout).
  exists out. split_and!; [done..|].
  rewrite Forall_forall in Hout. intros p (ds & -> & Hds & Hlen)%Hout.
  split_and!; [|done|done|by apply le_n_S].
  change (py "+") with [43%N]. rewrite count_char_filter.
  cbn [List.filter]. rewrite N.eqb_refl. by rewrite digits_no_plus.
Qed.

(** C4, as amended: running the phone normalizer on its own output
    returns the same strings when no returned string starts with
    [+3590]; running the email normalizer on its own output returns it
    unchanged when the last dot-separated segment of no returned email
    contains [web] or [www]. *)
Theorem normalizers_idempotent_on_stable_output :
  (∀ phones out,
     clean_phone_number phones = Ok out →
     (∀ p, p ∈ out → Py.startswith p (py "+3590") = false) →
     ∃ out', clean_phone_number out = Ok out' ∧ out' ≡ₚ out) ∧
  (∀ emails out,
     clean_emails emails = Ok out →
     (∀ e, e ∈ out →
           Py.contains (last_segment e) (py "web") = false ∧
           Py.contains (last_segment e) (py "www") = false) →
     clean_emails out = Ok out).
Proof.
  split.
  - apply clean_phone_number_stable.
  - apply clean_emails_stable.
Qed.

End PhoneExamples.

(** ** The postal code and street address filters *)

Section Filters.
Context {U : Unicode}.

Lemma filter_postal_code_eq values :
  filter_postal_code values = List.filter four_digits values.
Proof.
  unfold filter_postal_code. apply filter_ext. intros v. apply fullmatch_postal.
Qed.

Lemma four_digits_spec v :
  four_digits v = true ↔ length v = 4 ∧ Forall (λ c, isdecimal c = true) v.
Proof.
  unfold four_digits.
  rewrite andb_true_iff, Nat.eqb_eq, forallb_forall, Forall_forall.
  by setoid_rewrite list_elem_of_In.
Qed.

Lemma street_like_spec v : street_like v = true ↔ has_street_word v.
Proof.
  unfold street_like, has_street_word. rewrite existsb_exists. split.
  - intros (word & Hw%list_elem_of_In & (pre & post & E)%contains_spec).
    by exists word, pre, post.
  - intros (word & pre & post & Hw%list_elem_of_In & E).
    exists word. split; [done|]. apply contains_spec. eauto.
Qed.

Context {L : UnicodeLaws U}.

Lemma four_digits_low v :
  forallb (λ c, (c <? 1632)%N) v = true →
  four_digits v = (length v =? 4) && forallb Ascii.isdigit v.
Proof.
  intros H. unfold four_digits. f_equal.
  induction v as [|c v IH]; [done|]. simpl in *.
  apply andb_prop in H as [Hc%N.ltb_lt Hv]. by rewrite isdecimal_low, IH.
Qed.

(** C7: the postal code filter keeps exactly the strings of four decimal
    digits, in their order: none shorter or longer, none truncated;
    [["1000"; "Sofia"; "12"; "9000"]] gives [["1000"; "9000"]] and
    [["12345"]] gives the empty list. *)
Theorem filter_postal_code_exactly_four_digits :
  (∀ values, filter_postal_code values = List.filter four_digits values) ∧
  (∀ v, four_digits v = true ↔
        length v = 4 ∧ Forall (λ c, isdecimal c = true) v) ∧
  filter_postal_code [py "1000"; py "Sofia"; py "12"; py "9000"]
    = [py "1000"; py "9000"] ∧
  filter_postal_code [py "12345"] = [].
Proof.
  split_and!.
  - apply filter_postal_code_eq.
  - apply four_digits_spec.
  - rewrite filter_postal_code_eq. cbn [List.filter].
    rewrite !four_digits_low by (vm_compute; reflexivity).
    vm_compute. reflexivity.
  - rewrite filter_postal_code_eq. cbn [List.filter].
    rewrite !four_digits_low by (vm_compute; reflexivity).
    vm_compute. reflexivity.
Qed.

(** C9: the street address filter keeps exactly the strings whose
    lowercased form contains [str], [blvd] or [bul.], in their order, with
    no other check, so [str] inside a word passes as well. *)
Theorem filter_street_address_keywords :
  (∀ values, filter_street_address values = List.filter street_like values) ∧
  (∀ v, street_like v = true ↔
        ∃ word pre post,
          word ∈ [py "str"; py "blvd"; py "bul."] ∧
          lower v = pre ++ word ++ post) ∧
  filter_street_address [py "12 Main Str."; py "Sofia"; py "5 Sea blvd"; py "1000"]
    = [py "12 Main Str."; py "5 Sea blvd"] ∧
  filter_street_address [py "Industrial zone"] = [py "Industrial zone"].
Proof.
  assert (∀ v, forallb (λ c, (c <? 128)%N) v = true →
               street_like v =
               existsb (λ word, Py.contains (map Ascii.tolower v) word)
                 street_words) as Hlow.
  { intros v Hv. unfold street_like. by rewrite lower_ascii by by apply forallb_ascii. }
  split_and!.
  - done.
  - apply street_like_spec.
  - change (filter_street_address ?l) with (List.filter street_like l).
    cbn [List.filter]. rewrite !Hlow by (vm_compute; reflexivity).
    vm_compute. reflexivity.
  - change (filter_street_address ?l) with (List.filter street_like l).
    cbn [List.filter]. rewrite !Hlow by (vm_compute; reflexivity).
    vm_compute. reflexivity.
Qed.

End Filters.

(** ** The postal code fallback *)

Section Fallback.
Context {U : Unicode}.

Lemma findall_from_unfold r prev s :
  Re.findall_from r prev 0 s =
  match Re.match_here false r prev s with
  | Some rest =>
    take (length s - length rest) s ::
      match s with
      | [] => []
      | c :: s' => Re.findall_from r (Some c) (pred (length s - length rest)) s'
      end
  | None =>
    match s with
    | [] => []
    | c :: s' => Re.findall_from r (Some c) 0 s'
    end
  end.
Proof. by destruct s. Qed.

Lemma extract_postal_code_fallback_eq text :
  extract_postal_code_fallback text =
  Ok (head (Re.findall postal_word_re text)).
Proof.
  unfold extract_postal_code_fallback.
  by destruct (Re.findall postal_word_re text).
Qed.

Context {L : UnicodeLaws U}.

Lemma isword_decimal c : isdecimal c = true → Re.isword c = true.
Proof. intros H%isalnum_decimal. unfold Re.isword. by rewrite H. Qed.

Lemma match_here_postal_word prev s :
  Re.match_here false postal_word_re prev s =
  if standalone_run prev s then Some (drop 4 s) else None.
Proof.
  unfold Re.match_here, postal_word_re, standalone_run, four_digits.
  rewrite rmatch_seq, rmatch_wordb, rmatch_seq. unfold Re.at_boundary.
  destruct (from_option Re.isword false prev) eqn:Hprev;
    destruct s as [|a [|b [|c [|d rest]]]]; simpl;
    repeat match goal with
    | |- context [isdecimal ?x] =>
      let E := fresh "E" in
      destruct (isdecimal x) eqn:E;
      [pose proof (isword_decimal x E)|]; simpl
    | H : Re.isword ?x = true |- context [Re.isword ?x] => rewrite H; simpl
    end; try done.
  all: try (by destruct (Re.isword a)).
  unfold Re.at_boundary. simpl.
  match goal with H : Re.isword d = true |- _ => rewrite H end.
  destruct rest as [|e rest]; simpl; [done|]. by destruct (Re.isword e).
Qed.

Lemma standalone_run_length prev s : standalone_run prev s = true → 4 ≤ length s.
Proof.
  unfold standalone_run, four_digits.
  intros [[_ [H%Nat.eqb_eq _]%andb_prop]%andb_prop _]%andb_prop.
  rewrite length_take in H. lia.
Qed.

Lemma findall_postal_word_head s : ∀ prev,
  head (Re.findall_from postal_word_re prev 0 s) = first_postal_run prev s.
Proof.
  induction s as [|c s IH]; intros prev;
    rewrite findall_from_unfold, match_here_postal_word.
  - cbn [first_postal_run]. destruct (standalone_run prev []) eqn:E; [|done].
    apply standalone_run_length in E. simpl in E. lia.
  - cbn [first_postal_run]. destruct (standalone_run prev (c :: s)) eqn:E.
    + apply standalone_run_length in E. cbn [head]. do 2 f_equal.
      rewrite length_drop. lia.
    + apply IH.
Qed.

Lemma extract_postal_code_fallback_spec text :
  extract_postal_code_fallback text = Ok (first_postal_run None text).
Proof.
  rewrite extract_postal_code_fallback_eq. f_equal.
  apply findall_postal_word_head.
Qed.

Lemma first_postal_run_truthy prev s r :
  first_postal_run prev s = Some r → Py.truthy r = true.
Proof.
  assert (∀ prev s, standalone_run prev s = true →
                    Py.truthy (take 4 s) = true) as Hrun.
  { intros prev' s' E%standalone_run_length.
    destruct s' as [|? ?]; [simpl in E; lia|done]. }
  revert prev. induction s as [|c s IH]; intros prev; cbn [first_postal_run];
    destruct (standalone_run prev _) eqn:E.
  - intros [= <-]. exact (Hrun prev [] E).
  - done.
  - intros [= <-]. exact (Hrun prev (c :: s) E).
  - apply IH.
Qed.

End Fallback.

(** ** The record builder *)

Section Classify.

Lemma label_map_facts :
  Forall (λ p, reverse_map !! p.2 = Some p.1 ∧
               empty_extracted !! p.1 = Some [] ∧
               Py.truthy p.1 = true ∧
               description_of p.1 = p.2) label_map.
Proof.
  unfold label_map.
  repeat (apply Forall_cons; split;
          [split_and!; vm_compute; reflexivity|]).
  apply Forall_nil_2.
Qed.

Lemma reverse_map_lookup k d : (k, d) ∈ label_map → reverse_map !! d = Some k.
Proof.
  intros H. pose proof label_map_facts as HF.
  rewrite Forall_forall in HF. by destruct (HF _ H) as (? & _).
Qed.

Lemma empty_extracted_lookup k d :
  (k, d) ∈ label_map → empty_extracted !! k = Some [].
Proof.
  intros H. pose proof label_map_facts as HF.
  rewrite Forall_forall in HF. by destruct (HF _ H) as (_ & ? & _).
Qed.

Lemma label_map_truthy k d : (k, d) ∈ label_map → Py.truthy k = true.
Proof.
  intros H. pose proof label_map_facts as HF.
  rewrite Forall_forall in HF. by destruct (HF _ H) as (_ & _ & ? & _).
Qed.

Lemma label_map_description k d : (k, d) ∈ label_map → description_of k = d.
Proof.
  intros H. pose proof label_map_facts as HF.
  rewrite Forall_forall in HF. by destruct (HF _ H) as (_ & _ & _ & ?).
Qed.

Lemma reverse_map_Some d k : reverse_map !! d = Some k → (k, d) ∈ label_map.
Proof.
  unfold reverse_map, label_map. cbn [foldl]. intros H.
  repeat (apply lookup_insert_Some in H as [[<- <-]|[_ H]];
          [repeat first [apply list_elem_of_here|apply list_elem_of_further]|]).
  by rewrite lookup_empty in H.
Qed.

Lemma candidates_cons d e ents :
  candidates d (e :: ents) =
  if bool_decide (label e = d) then text e :: candidates d ents
  else candidates d ents.
Proof. unfold candidates. simpl. by case_bool_decide. Qed.

(** The loop files every match under the key of its label and leaves the
    other matches out. *)
Lemma classify_loop_spec ents : ∀ m : gmap str (list str),
  (∀ k d, (k, d) ∈ label_map → is_Some (m !! k)) →
  ∃ m' : gmap str (list str),
    classify_loop m ents = Ok m' ∧
    ∀ k d, (k, d) ∈ label_map →
           m' !! k = (λ l, l ++ candidates d ents) <$> m !! k.
Proof.
  induction ents as [|e ents IH]; intros m Hm; cbn [classify_loop].
  - exists m. split; [done|]. intros k d [l Hl]%Hm.
    rewrite Hl. simpl. by rewrite app_nil_r.
  - unfold classify_step. destruct (reverse_map !! label e) as [key|] eqn:E.
    + pose proof (reverse_map_Some _ _ E) as Hkey.
      rewrite (label_map_truthy _ _ Hkey).
      destruct (Hm _ _ Hkey) as [l Hl]. unfold dict_getitem. rewrite Hl.
      rewrite !bind_Ok.
      destruct (IH (<[key := l ++ [text e]]> m)) as (m' & -> & Hm').
      { intros k d Hk. destruct (decide (key = k)) as [->|Hne].
        - rewrite lookup_insert_eq. eauto.
        - rewrite lookup_insert_ne by done. eauto. }
      exists m'. split; [done|]. intros k d Hk. rewrite (Hm' _ _ Hk).
      rewrite candidates_cons. destruct (decide (key = k)) as [->|Hne].
      * rewrite lookup_insert_eq, Hl. simpl.
        assert (label e = d) as ->.
        { rewrite <- (label_map_description _ _ Hk).
          by rewrite (label_map_description _ _ Hkey). }
        rewrite bool_decide_eq_true_2 by done. by rewrite <- app_assoc.
      * rewrite lookup_insert_ne by done.
        rewrite bool_decide_eq_false_2; [done|]. intros Heq.
        apply reverse_map_lookup in Hk. destruct Heq.
        by pose proof (eq_trans (eq_sym E) Hk) as [= ?].
    + rewrite bind_Ok. destruct (IH m Hm) as (m' & -> & Hm').
      exists m'. split; [done|]. intros k d Hk. rewrite (Hm' _ _ Hk).
      rewrite candidates_cons. rewrite bool_decide_eq_false_2; [done|].
      intros Heq. apply reverse_map_lookup in Hk. destruct Heq.
      by pose proof (eq_trans (eq_sym E) Hk).
Qed.

Lemma classify_spec ents :
  ∃ m' : gmap str (list str),
    classify_loop empty_extracted ents = Ok m' ∧
    ∀ k d, (k, d) ∈ label_map → m' !! k = Some (candidates d ents).
Proof.
  destruct (classify_loop_spec ents empty_extracted) as (m' & H & Hm').
  { intros k d Hk. rewrite (empty_extracted_lookup _ _ Hk). eauto. }
  exists m'. split; [done|]. intros k d Hk.
  by rewrite (Hm' _ _ Hk), (empty_extracted_lookup _ _ Hk).
Qed.

End Classify.

Section Record.
Context {U : Unicode}.
Variable predict_entities : str → list str → list entity.

Lemma clean_phone_step_ok acc phone :
  ∃ acc', clean_phone_step acc phone = Ok acc'.
Proof.
  unfold clean_phone_step.
  destruct (split_getitem_0 true marker_re
              (Py.strip (Py.replace phone [160%N] [32%N]))) as [x ->].
  rewrite bind_Ok. cbv zeta. case_match; eauto.
Qed.

Lemma clean_phone_number_ok phones : ∃ out, clean_phone_number phones = Ok out.
Proof.
  unfold clean_phone_number. destruct (negb (Py.truthy phones)); [eauto|].
  assert (∀ acc, ∃ out, clean_phone_loop acc phones = Ok out) as Hloop.
  { induction phones as [|p phones IH]; intros acc; [by exists acc|].
    rewrite clean_phone_loop_cons.
    destruct (clean_phone_step_ok acc p) as [acc' ->]. rewrite bind_Ok.
    apply IH. }
  destruct (Hloop []) as [out ->]. rewrite bind_Ok. eauto.
Qed.

Lemma first_or_eq l placeholder :
  first_or l placeholder = Ok (first_value placeholder l).
Proof. by destruct l. Qed.

Lemma texts_of_truthy (ents : list entity) :
  (if Py.truthy ents then texts_of ents else []) = texts_of ents.
Proof. by destruct ents. Qed.

Lemma key_in_label_map k :
  bool_decide (k ∈ map fst label_map) = true →
  (k, description_of k) ∈ label_map.
Proof.
  intros [[k' d] [-> Hin]]%bool_decide_eq_true%list_elem_of_fmap.
  cbn [fst]. by rewrite (label_map_description _ _ Hin).
Qed.

(** The record, field by field. *)
Lemma extract_single_company_info_eq text :
  let ents := predict_entities text (map snd label_map) in
  let email_ents := predict_entities text (map snd email_label) in
  ∃ name cleaned_phones cleaned_emails,
    Py.getitem (Py.split text 44%N) 0 = Ok name ∧
    clean_phone_number (candidates (description_of (py "phone")) ents)
      = Ok cleaned_phones ∧
    clean_emails (texts_of email_ents) = Ok cleaned_emails ∧
    extract_single_company_info predict_entities text = Ok [
      (company_name_key, VStr name);
      (py "Phone numbers", list_or cleaned_phones (py "No phones detected"));
      (py "Emails", list_or cleaned_emails (py "No emails detected"));
      (py "Websites",
       list_or (candidates (description_of (py "site")) ents)
         (py "No website detected"));
      (py "Street address",
       first_value (py "No street address detected")
         (filter_street_address
            (candidates (description_of (py "street_address")) ents)));
      (py "City",
       first_value (py "No city detected")
         (candidates (description_of (py "city")) ents));
      (py "Country",
       first_value (py "No country detected")
         (candidates (description_of (py "country")) ents));
      (py "Postal code",
       str_or (postal_code_of ents text) (py "No postal code detected"))
    ].
Proof.
  intros ents email_ents.
  destruct (classify_spec ents) as (m & Hloop & Hm).
  assert (∀ k, bool_decide (k ∈ map fst label_map) = true →
               dict_getitem m k = Ok (candidates (description_of k) ents))
    as Hget.
  { intros k Hk%key_in_label_map. unfold dict_getitem.
    by rewrite (Hm _ _ Hk). }
  destruct (clean_phone_number_ok (candidates (description_of (py "phone")) ents))
    as [cleaned_phones Hphones].
  destruct (clean_emails_spec (texts_of email_ents)) as (cleaned_emails & Hemails & _).
  assert (∃ name, Py.getitem (Py.split text 44%N) 0 = Ok name) as [name Hname].
  { pose proof (split_nonempty text 44%N).
    destruct (Py.split text 44%N) as [|name ?]; [done|]. by exists name. }
  exists name, cleaned_phones, cleaned_emails. split_and!; [done..|].
  assert ((if Py.truthy (filter_postal_code
                           (candidates (description_of (py "postal_code")) ents))
           then p ← Py.getitem (filter_postal_code
                      (candidates (description_of (py "postal_code")) ents)) 0;
                Ok (Some p)
           else extract_postal_code_fallback text)
          = Ok (postal_code_of ents text)) as Hpostal.
  { unfold postal_code_of.
    destruct (filter_postal_code _) as [|p ?]; [|done].
    apply extract_postal_code_fallback_eq. }
  unfold extract_single_company_info.
  fold ents. fold email_ents. cbv zeta.
  rewrite texts_of_truthy, Hloop.
  repeat (first [ rewrite bind_Ok
                | rewrite Hget by (vm_compute; reflexivity)
                | rewrite Hphones | rewrite Hemails | rewrite Hname
                | rewrite first_or_eq | rewrite Hpostal ];
          cbv beta).
  done.
Qed.

Lemma list_or_field l placeholder :
  list_field placeholder l (list_or l placeholder).
Proof. destruct l; [by left|by right]. Qed.

Lemma first_value_field l placeholder :
  first_field placeholder l (first_value placeholder l).
Proof. destruct l as [|s l]; [by left|right; by exists s, l]. Qed.

(** C5: for every row and whatever the recognizer returns, the record
    builder raises no exception and returns a record with the eight
    fields, in their order, each holding a value taken from the matches
    (or, for the postal code, from the fallback) or the placeholder of the
    field. *)
Theorem extract_single_company_info_total (text : str) :
  let ents := predict_entities text (map snd label_map) in
  let email_ents := predict_entities text (map snd email_label) in
  ∃ name phones emails websites street city country postal,
    extract_single_company_info predict_entities text = Ok [
      (company_name_key, VStr name);
      (py "Phone numbers", phones);
      (py "Emails", emails);
      (py "Websites", websites);
      (py "Street address", street);
      (py "City", city);
      (py "Country", country);
      (py "Postal code", postal)
    ] ∧
    head (Py.split text 44%N) = Some name ∧
    (∃ l, clean_phone_number (candidates (description_of (py "phone")) ents)
            = Ok l ∧
          list_field (py "No phones detected") l phones) ∧
    (∃ l, clean_emails (texts_of email_ents) = Ok l ∧
          list_field (py "No emails detected") l emails) ∧
    list_field (py "No website detected")
      (candidates (description_of (py "site")) ents) websites ∧
    first_field (py "No street address detected")
      (filter_street_address
         (candidates (description_of (py "street_address")) ents)) street ∧
    first_field (py "No city detected")
      (candidates (description_of (py "city")) ents) city ∧
    first_field (py "No country detected")
      (candidates (description_of (py "country")) ents) country ∧
    (postal = VStr (py "No postal code detected") ∨
     ∃ s, postal = VStr s ∧
          (s ∈ filter_postal_code
                 (candidates (description_of (py "postal_code")) ents) ∨
           extract_postal_code_fallback text = Ok (Some s))).
Proof.
  intros ents email_ents.
  destruct (extract_single_company_info_eq text)
    as (name & cleaned_phones & cleaned_emails & Hname & Hphones & Hemails & ->).
  fold ents. fold email_ents. do 8 eexists. split; [reflexivity|].
  split_and!.
  - destruct (Py.split text 44%N) as [|x xs]; [by vm_compute in Hname|].
    rewrite getitem_0 in Hname. by injection Hname as ->.
  - exists cleaned_phones. split; [done|apply list_or_field].
  - exists cleaned_emails. split; [done|apply list_or_field].
  - apply list_or_field.
  - apply first_value_field.
  - apply first_value_field.
  - apply first_value_field.
  - unfold postal_code_of. fold ents.
    destruct (filter_postal_code _) as [|p ps] eqn:E.
    + rewrite extract_postal_code_fallback_eq.
      destruct (head _) as [s|]; [|by left]. simpl.
      destruct (Py.truthy s); [|by left]. right. exists s. eauto.
    + simpl. destruct (Py.truthy p); [|by left]. right. exists p.
      split; [done|]. left. by left.
Qed.

End Record.

Section PostalField.
Context {U : Unicode} {L : UnicodeLaws U}.
Variable predict_entities : str → list str → list entity.

Lemma record_get_here k v record k' :
  bool_decide (k = k') = true → record_get ((k, v) :: record) k' = Some v.
Proof. intros H. simpl. by rewrite H. Qed.

Lemma record_get_skip k v record k' :
  bool_decide (k = k') = false →
  record_get ((k, v) :: record) k' = record_get record k'.
Proof. intros H. simpl. by rewrite H. Qed.

Lemma four_digits_truthy p : four_digits p = true → Py.truthy p = true.
Proof.
  unfold four_digits. intros [H%Nat.eqb_eq _]%andb_prop. by destruct p.
Qed.

(** C6: the postal code of the record is the first candidate that is
    four decimal digits when there is one; otherwise the first standalone
    run of exactly four digits bounded by word boundaries in the row;
    otherwise the placeholder.  The row is searched only when no candidate
    passes the filter. *)
Theorem postal_code_field (text : str) :
  let ents := predict_entities text (map snd label_map) in
  let filtered :=
    List.filter four_digits (candidates (description_of (py "postal_code")) ents) in
  ∃ record,
    extract_single_company_info predict_entities text = Ok record ∧
    record_get record (py "Postal code") =
    Some (VStr match filtered with
               | p :: _ => p
               | [] =>
                 match first_postal_run None text with
                 | Some run => run
                 | None => py "No postal code detected"
                 end
               end).
Proof.
  intros ents filtered.
  destruct (extract_single_company_info_eq predict_entities text)
    as (name & cleaned_phones & cleaned_emails & _ & _ & _ & ->).
  eexists. split; [reflexivity|].
  rewrite !record_get_skip by (vm_compute; reflexivity).
  rewrite record_get_here by (vm_compute; reflexivity).
  do 2 f_equal. unfold postal_code_of. fold ents.
  rewrite filter_postal_code_eq. fold filtered.
  destruct filtered as [|p ps] eqn:E.
  - unfold Re.findall. rewrite findall_postal_word_head.
    destruct (first_postal_run None text) as [run|] eqn:Hrun; [|done].
    simpl. by rewrite (first_postal_run_truthy _ _ _ Hrun).
  - simpl. rewrite four_digits_truthy; [done|].
    assert (p ∈ filtered) as Hp by (rewrite E; by left).
    by apply list_elem_of_In, filter_In in Hp as [_ ?].
Qed.

End PostalField.

(** ** The theorems at the Basic Latin database, on concrete inputs *)

Lemma clean_emails_docstring_examples_witness :
  clean_emails (U:=basic_latin) [py "info@company.web.bg"]
    = Ok [py "info@company.web.bg"] ∧
  clean_emails (U:=basic_latin) [py "contact@www.domain.com"]
    = Ok [py "contact@www.domain.com"].
Proof.
  exact (@clean_emails_docstring_examples basic_latin basic_latin_laws).
Defined.

Lemma clean_phone_number_docstring_example_witness :
  clean_phone_number (U:=basic_latin)
    [py "+359 2 962 53 96"; cyr_tel ++ py ".: 032 632 111"]
  = Ok [py "+35929625396"].
Proof.
  exact (@clean_phone_number_docstring_example basic_latin basic_latin_laws).
Defined.

Lemma clean_phone_number_plus_digits_witness :
  ∃ out,
    clean_phone_number (U:=basic_latin) [py "02/987 02 35"; py "0897 889 493"]
      = Ok out ∧
    NoDup out ∧
    ∀ p, p ∈ out →
      ∃ ds, p = 43%N :: ds ∧
            Forall (λ c, isdecimal (Unicode:=basic_latin) c = true) ds ∧
            9 ≤ length ds.
Proof.
  exact (@clean_phone_number_plus_digits basic_latin basic_latin_laws
           [py "02/987 02 35"; py "0897 889 493"]).
Defined.

Lemma clean_phone_number_shape_witness :
  ∃ out,
    clean_phone_number (U:=basic_latin) [py "+359 2 962 53 96"; py "12"]
      = Ok out ∧
    NoDup out ∧
    ∀ p, p ∈ out →
      Py.count p (py "+") = 1 ∧
      p !! 0 = Some 43%N ∧
      Forall (λ c, isdecimal (Unicode:=basic_latin) c = true) (drop 1 p) ∧
      10 ≤ length p.
Proof.
  exact (@clean_phone_number_shape basic_latin basic_latin_laws
           [py "+359 2 962 53 96"; py "12"]).
Defined.

Lemma normalizers_idempotent_on_stable_output_witness :
  (∃ out', clean_phone_number (U:=basic_latin) [py "+35929870235"] = Ok out' ∧
           out' ≡ₚ [py "+35929870235"]) ∧
  clean_emails (U:=basic_latin) [py "info@company.COM"; py "a@b.bg"]
    = Ok [py "info@company.com"; py "a@b.bg"] ∧
  clean_emails (U:=basic_latin) [py "info@company.com"; py "a@b.bg"]
    = Ok [py "info@company.com"; py "a@b.bg"].
Proof.
  destruct (@normalizers_idempotent_on_stable_output basic_latin basic_latin_laws)
    as [Hphones Hemails].
  split_and!.
  - apply (Hphones [py "02/987 02 35"]).
    + vm_compute. reflexivity.
    + intros p ->%list_elem_of_singleton. vm_compute. reflexivity.
  - vm_compute. reflexivity.
  - apply (Hemails [py "info@company.COM"; py "a@b.bg"]).
    + vm_compute. reflexivity.
    + intros e [->|[->|[]%elem_of_nil]%elem_of_cons]%elem_of_cons;
        split; vm_compute; reflexivity.
Defined.

Lemma postal_code_field_witness :
  (∃ record,
     extract_single_company_info (U:=basic_latin) no_entities
       (py "BULGARIA , 1202 Sofia, 16 Srebarna Str.") = Ok record ∧
     record_get record (py "Postal code") = Some (VStr (py "1202"))) ∧
  (∃ record,
     extract_single_company_info (U:=basic_latin) docstring_entities
       (py "ABC Capital, Bulgaria, Sofia 1000, 12 Main Str., +35921234567, info@abc.bg")
       = Ok record ∧
     record_get record (py "Postal code") = Some (VStr (py "1000"))) ∧
  (∃ record,
     extract_single_company_info (U:=basic_latin) no_entities
       (py "ABC Capital, no digits here") = Ok record ∧
     record_get record (py "Postal code")
       = Some (VStr (py "No postal code detected"))).
Proof.
  split_and!.
  - destruct (@postal_code_field basic_latin basic_latin_laws no_entities
                (py "BULGARIA , 1202 Sofia, 16 Srebarna Str."))
      as (record & H1 & H2).
    exists record. split; [exact H1|]. rewrite H2. vm_compute. reflexivity.
  - destruct (@postal_code_field basic_latin basic_latin_laws docstring_entities
                (py "ABC Capital, Bulgaria, Sofia 1000, 12 Main Str., +35921234567, info@abc.bg"))
      as (record & H1 & H2).
    exists record. split; [exact H1|]. rewrite H2. vm_compute. reflexivity.
  - destruct (@postal_code_field basic_latin basic_latin_laws no_entities
                (py "ABC Capital, no digits here"))
      as (record & H1 & H2).
    exists record. split; [exact H1|]. rewrite H2. vm_compute. reflexivity.
Defined.

Lemma filter_postal_code_exactly_four_digits_witness :
  (∀ values,
     filter_postal_code (U:=basic_latin) values
     = List.filter (four_digits (U:=basic_latin)) values) ∧
  (∀ v, four_digits (U:=basic_latin) v = true ↔
        length v = 4 ∧ Forall (λ c, isdecimal (Unicode:=basic_latin) c = true) v) ∧
  filter_postal_code (U:=basic_latin) [py "1000"; py "Sofia"; py "12"; py "9000"]
    = [py "1000"; py "9000"] ∧
  filter_postal_code (U:=basic_latin) [py "12345"] = [].
Proof.
  exact (@filter_postal_code_exactly_four_digits basic_latin basic_latin_laws).
Defined.

Lemma filter_street_address_keywords_witness :
  filter_street_address (U:=basic_latin)
    [py "12 Main Str."; py "Sofia"; py "5 Sea blvd"; py "1000"]
    = [py "12 Main Str."; py "5 Sea blvd"] ∧
  filter_street_address (U:=basic_latin) [py "Industrial zone"]
    = [py "Industrial zone"].
Proof.
  destruct (@filter_street_address_keywords basic_latin basic_latin_laws)
    as (_ & _ & H1 & H2).
  exact (conj H1 H2).
Defined.

(** ** Where the claims fail *)

(** C3: a candidate with another country code is returned as it is, and
    so is one with twelve digits after [+359]. *)
Lemma clean_phone_number_other_prefix :
  clean_phone_number (U:=basic_latin) [py "+123456789"] = Ok [py "+123456789"] ∧
  Py.startswith (py "+123456789") (py "+359") = false ∧
  clean_phone_number (U:=basic_latin) [py "+359123456789012"]
    = Ok [py "+359123456789012"] ∧
  length (drop 4 (py "+359123456789012")) = 12.
Proof.
  destruct (@other_prefix_returned basic_latin basic_latin_laws) as [H1 H2].
  split_and!; [exact H1| |exact H2|]; vm_compute; reflexivity.
Qed.

(** C4: the output of a first run is changed by a second run, for phones
    and for emails. *)
Lemma normalizers_not_idempotent :
  (clean_phone_number (U:=basic_latin) [py "+35900123456789"]
     = Ok [py "+3590123456789"] ∧
   clean_phone_number (U:=basic_latin) [py "+3590123456789"]
     = Ok [py "+359123456789"] ∧
   ¬ ([py "+359123456789"] ≡ₚ [py "+3590123456789"])) ∧
  (clean_emails (U:=basic_latin) [py "a@b.wewwwb"] = Ok [py "a@b.web"] ∧
   clean_emails (U:=basic_latin) [py "a@b.web"] = Ok [py "a@b."] ∧
   [py "a@b."] ≠ [py "a@b.web"]).
Proof.
  destruct (@zero_dropped_per_run basic_latin basic_latin_laws) as [H1 H2].
  destruct (@web_left_for_next_run basic_latin basic_latin_laws) as [H3 H4].
  split_and!; [exact H1|exact H2| |exact H3|exact H4|].
  - intros H%Permutation_singleton_r. vm_compute in H. discriminate.
  - intros H. vm_compute in H. discriminate.
Qed.
(** * Further properties of the code *)

(** ** The phone normalizer, candidate by candidate *)

Section PhoneAnatomy.
Context {U : Unicode}.

(** The first piece of a split is a prefix of the text. *)
Lemma split_from_head_prefix ic r s : ∀ prev,
  ∃ x pieces rest,
    Re.split_from ic r prev 0 s = x :: pieces ∧ s = x ++ rest.
Proof.
  induction s as [|c s IH]; intros prev; rewrite split_from_unfold.
  - destruct (Re.match_here ic r prev []); by eexists [], _, [].
  - destruct (Re.match_here ic r prev (c :: s)).
    + by eexists [], _, (c :: s).
    + destruct (IH (Some c)) as (x & pieces & rest & -> & ->).
      by exists (c :: x), pieces, rest.
Qed.

(** The loop body appends what [phone_finish] gives for the digits and
    plus signs of the text before the first marker. *)
Lemma clean_phone_step_anatomy phone :
  ∃ x rest,
    Py.strip (Py.replace phone [160%N] [32%N]) = x ++ rest ∧
    Py.getitem (Re.split true marker_re
                  (Py.strip (Py.replace phone [160%N] [32%N]))) 0 = Ok x ∧
    ∀ acc, clean_phone_step acc phone =
           Ok (acc ++ option_list (phone_finish (List.filter phone_char x))).
Proof.
  destruct (split_from_head_prefix true marker_re
              (Py.strip (Py.replace phone [160%N] [32%N])) None)
    as (x & pieces & rest & Hsplit & Hx).
  exists x, rest. split; [done|].
  assert (Py.getitem (Re.split true marker_re
            (Py.strip (Py.replace phone [160%N] [32%N]))) 0 = Ok x) as Hget.
  { unfold Re.split. by rewrite Hsplit. }
  split; [done|]. intros acc. unfold clean_phone_step.
  rewrite Hget, bind_Ok. cbv zeta. rewrite !sub_junk.
  unfold phone_finish, country_code, collapse_plus. cbv zeta.
  match goal with
  | |- (if ?b then _ else _) = Ok (_ ++ option_list (if ?b' then _ else _)) =>
    change b' with b; destruct b
  end; [by rewrite app_nil_r|done].
Qed.

Lemma clean_phone_loop_concat phones : ∀ acc,
  ∃ out,
    clean_phone_loop acc phones = Ok (acc ++ out) ∧
    ∀ p, p ∈ out ↔ ∃ phone, phone ∈ phones ∧ clean_phone_step [] phone = Ok [p].
Proof.
  induction phones as [|phone phones IH]; intros acc.
  - exists []. rewrite clean_phone_loop_nil, app_nil_r. split; [done|].
    intros p. split; [by intros ?%elem_of_nil|].
    by intros (? & ?%elem_of_nil & _).
  - rewrite clean_phone_loop_cons.
    destruct (clean_phone_step_anatomy phone) as (x & rest & _ & _ & Hstep).
    rewrite Hstep, bind_Ok.
    destruct (IH (acc ++ option_list (phone_finish (List.filter phone_char x))))
      as (out & -> & Hout).
    exists (option_list (phone_finish (List.filter phone_char x)) ++ out).
    rewrite <- app_assoc. split; [done|]. intros p.
    rewrite elem_of_app, Hout. split.
    + intros [Hp|(phone' & Hin & Hp)].
      * exists phone. split; [by left|]. rewrite Hstep. simpl.
        destruct (phone_finish _) as [q|]; simpl in *.
        -- by apply list_elem_of_singleton in Hp as ->.
        -- by apply elem_of_nil in Hp.
      * exists phone'. split; [by right|done].
    + intros (phone' & [->|Hin]%elem_of_cons & Hp).
      * left. rewrite Hstep in Hp. simpl in Hp.
        destruct (phone_finish _) as [q|]; simpl in *; [|done].
        injection Hp as ->. by left.
      * right. eauto.
Qed.

Lemma clean_phone_number_single phone l :
  clean_phone_step [] phone = Ok l → clean_phone_number [phone] = Ok l.
Proof.
  intros H. rewrite clean_phone_number_cons, clean_phone_loop_cons, H, bind_Ok.
  cbv beta. rewrite clean_phone_loop_nil, bind_Ok.
  destruct (clean_phone_step_anatomy phone) as (x & rest & _ & _ & Hstep).
  rewrite Hstep in H. injection H as <-. simpl.
  destruct (phone_finish _); simpl; [by rewrite list_set_singleton|done].
Qed.

Lemma clean_phone_number_single_inv phone p :
  clean_phone_number [phone] = Ok [p] → clean_phone_step [] phone = Ok [p].
Proof.
  destruct (clean_phone_step_anatomy phone) as (x & rest & _ & _ & Hstep).
  rewrite (clean_phone_number_single phone _ (Hstep [])), Hstep. done.
Qed.

(** X1: the phone normalizer works candidate by candidate: a string is
    returned for a list exactly when it is returned for one of its
    candidates alone.  The result, as a set, does not depend on the order
    of the candidates or on their repetition. *)
Theorem clean_phone_number_elementwise (phones : list str) :
  ∃ out,
    clean_phone_number phones = Ok out ∧
    ∀ p, p ∈ out ↔
         ∃ phone, phone ∈ phones ∧ clean_phone_number [phone] = Ok [p].
Proof.
  destruct (clean_phone_loop_concat phones []) as (acc & Hloop & Hacc).
  destruct phones as [|phone phones].
  - exists []. split; [done|]. intros p. split; [by intros ?%elem_of_nil|].
    by intros (? & ?%elem_of_nil & _).
  - rewrite clean_phone_number_cons, Hloop, bind_Ok. cbv beta.
    eexists. split; [done|]. intros p.
    rewrite elem_of_list_set. simpl. rewrite Hacc. split.
    + intros (phone' & Hin & Hp). exists phone'. split; [done|].
      by apply clean_phone_number_single.
    + intros (phone' & Hin & Hp). exists phone'. split; [done|].
      by apply clean_phone_number_single_inv.
Qed.

Lemma replace_nbsp s :
  Py.replace s [160%N] [32%N] = map (λ c, if (160 =? c)%N then 32%N else c) s.
Proof.
  simpl. induction s as [|c s IH]; [done|]. simpl.
  rewrite andb_true_r. destruct (160 =? c)%N; simpl; by rewrite IH.
Qed.

Lemma lstrip_suffix s : ∃ sp, s = sp ++ Py.lstrip s ∧ Forall (λ c, Py.isspace c = true) sp.
Proof.
  induction s as [|c s (sp & IH & Hsp)]; simpl.
  - by exists [].
  - destruct (Py.isspace c) eqn:E.
    + exists (c :: sp). split; [by rewrite IH at 1|by constructor].
    + by exists [].
Qed.

Lemma strip_parts s :
  ∃ sp1 sp2,
    s = sp1 ++ Py.strip s ++ sp2 ∧
    Forall (λ c, Py.isspace c = true) sp1 ∧
    Forall (λ c, Py.isspace c = true) sp2.
Proof.
  destruct (lstrip_suffix s) as (sp1 & H1 & Hsp1).
  destruct (lstrip_suffix (reverse (Py.lstrip s))) as (sp2 & H2 & Hsp2).
  exists sp1, (reverse sp2). split_and!; [|done|by apply Forall_reverse].
  unfold Py.strip, Py.rstrip. rewrite <- reverse_app, <- H2.
  by rewrite reverse_involutive.
Qed.

Lemma strip_length s : length (Py.strip s) ≤ length s.
Proof.
  destruct (strip_parts s) as (sp1 & sp2 & H & _).
  rewrite H at 2. rewrite !length_app. lia.
Qed.

Lemma filter_count_length (s : str) a :
  length (List.filter (λ c, negb (a =? c)%N) s) +
  length (List.filter (λ c, (a =? c)%N) s) = length s.
Proof.
  induction s as [|c s IH]; [done|]. simpl.
  destruct (a =? c)%N; simpl; lia.
Qed.

(** A candidate that is not skipped has at least nine digits and plus
    signs before its first marker. *)
Lemma collapse_plus_length p1 : length (collapse_plus p1) ≤ length p1.
Proof.
  unfold collapse_plus. change (py "+") with [43%N].
  rewrite count_char_filter, replace_char_filter.
  pose proof (filter_count_length p1 43%N) as Hc.
  case_match eqn:E; [|done].
  apply Nat.ltb_lt in E. rewrite length_app. simpl. unfold char in *. lia.
Qed.

Lemma country_code_length p2 :
  10 ≤ length (country_code p2) → 9 ≤ length p2.
Proof.
  unfold country_code. destruct (Py.startswith p2 (py "+3590")) eqn:E1.
  { apply startswith_spec in E1 as [t ->].
    change (drop 5 (py "+3590" ++ t)) with t.
    change (py "+359" ++ t) with (43 :: 51 :: 53 :: 57 :: t)%N.
    change (py "+3590" ++ t) with (43 :: 51 :: 53 :: 57 :: 48 :: t)%N.
    simpl. lia. }
  destruct (Re.fullmatch local_re p2) eqn:E2; [|lia].
  apply fullmatch_local in E2 as (ds & -> & _ & Hds). simpl.
  unfold char in *. lia.
Qed.

Lemma phone_finish_length p1 p : phone_finish p1 = Some p → 9 ≤ length p1.
Proof.
  unfold phone_finish. cbv zeta. intros Hp.
  etrans; [|apply (collapse_plus_length p1)].
  apply country_code_length.
  destruct (Nat.ltb_spec (length (country_code (collapse_plus p1))) 10)
    as [|Hlen]; [done|]. exact Hlen.
Qed.

Lemma clean_phone_step_length phone p :
  clean_phone_step [] phone = Ok [p] → 9 ≤ length phone.
Proof.
  destruct (clean_phone_step_anatomy phone) as (x & rest & Hx & _ & Hstep).
  rewrite Hstep. simpl.
  destruct (phone_finish _) as [q|] eqn:E; [|done]. intros _.
  apply phone_finish_length in E.
  pose proof (strip_length (Py.replace phone [160%N] [32%N])) as Hs.
  rewrite Hx, replace_nbsp, length_map, length_app in Hs.
  pose proof (filter_length phone_char x). unfold str, char in *. lia.
Qed.

(** X2: candidates of fewer than nine characters are all skipped. *)
Theorem clean_phone_number_short (phones : list str) :
  Forall (λ phone, length phone < 9) phones →
  clean_phone_number phones = Ok [].
Proof.
  intros Hshort.
  destruct (clean_phone_loop_concat phones []) as (acc & Hloop & Hacc).
  destruct phones as [|phone phones]; [done|].
  rewrite clean_phone_number_cons, Hloop, bind_Ok. cbv beta. simpl.
  destruct acc as [|p acc]; [done|].
  destruct (proj1 (Hacc p)) as (phone' & Hin & Hp); [by left|].
  apply clean_phone_step_length in Hp.
  rewrite Forall_forall in Hshort. apply Hshort in Hin. lia.
Qed.

End PhoneAnatomy.

(** ** The phone normalizer on candidates without letters *)

Section PhoneFormats.
Context {U : Unicode} {L : UnicodeLaws U}.

























End PhoneFormats.

(** ** The phone normalizer at a marker *)

Section PhoneMarkers.
Context {U : Unicode} {L : UnicodeLaws U}.













End PhoneMarkers.

(** ** The email normalizer on one address *)

Section EmailLabels.
Context {U : Unicode} {L : UnicodeLaws U}.

Lemma last_segment_app (stem seg : str) :
  46%N ∉ seg →
  (stem = [] ∨ (∃ stem', stem = stem' ++ [46%N])) →
  last_segment (stem ++ seg) = seg.
Proof.
  intros Hseg Hstem.
  destruct (last_segment_spec (stem ++ seg)) as (stem2 & He & Hls & Hstem2 & _).
  destruct (suffix_of_last_segment _ _ _ _ He Hls Hstem) as [pre Hpre].
  destruct (suffix_of_last_segment _ _ _ _ (eq_sym He) Hseg Hstem2)
    as [pre' Hpre'].
  assert (length pre = 0) as Hlen.
  { apply (f_equal length) in Hpre, Hpre'.
    rewrite length_app in Hpre, Hpre'. unfold str, char in *. lia. }
  destruct pre; [symmetry; exact Hpre|simpl in Hlen; lia].
Qed.

(** X8: only the text after the last dot is touched.  When that text is
    ASCII and, once in lower case, holds neither [web] nor [www], the
    address comes back with that text in lower case and the rest, case
    included, as it was. *)
Theorem clean_emails_last_label (stem tld : str) :
  46%N ∉ tld →
  Forall (λ c, (c < 128)%N) tld →
  Py.contains (map Ascii.tolower tld) (py "web") = false →
  Py.contains (map Ascii.tolower tld) (py "www") = false →
  clean_emails [stem ++ [46%N] ++ tld]
  = Ok [stem ++ [46%N] ++ map Ascii.tolower tld].
Proof.
  intros Hdot Hascii Hweb Hwww. rewrite !app_assoc.
  rewrite (clean_emails_singleton _ (stem ++ [46%N]) tld); [|done|].
  - unfold clean_last_segment. rewrite (lower_ascii tld Hascii).
    rewrite (replace_absent _ (py "web")) by done.
    by rewrite replace_absent.
  - apply last_segment_app; [done|]. right. by exists stem.
Qed.

(** X9: an address without a dot is its own last segment: all of it is
    put in lower case and loses every [web] and then every [www]. *)
Theorem clean_emails_no_dot (email : str) :
  46%N ∉ email →
  clean_emails [email]
  = Ok [Py.replace (Py.replace (lower email) (py "web") []) (py "www") []].
Proof.
  intros Hdot.
  rewrite (clean_emails_singleton email [] email); [done|done|].
  apply (last_segment_app [] email Hdot). by left.
Qed.

End EmailLabels.

(** ** The fallback search for the postal code *)

Section Fallback.
Context {U : Unicode} {L : UnicodeLaws U}.

Lemma four_digits_length run : four_digits run = true → length run = 4.
Proof. by intros [? _]%four_digits_spec. Qed.

Lemma standalone_run_split prev run post :
  length run = 4 →
  standalone_run prev (run ++ post) =
  negb (from_option Re.isword false prev) && four_digits run &&
  negb (from_option Re.isword false (head post)).
Proof.
  intros Hlen. unfold standalone_run. unfold str, char in *.
  rewrite take_app_length' by done.
  rewrite lookup_app_r by lia.
  replace (4 - length run) with 0 by lia.
  by rewrite <- head_lookup.
Qed.

Lemma standalone_run_take prev s :
  standalone_run prev s = true →
  ∃ post, s = take 4 s ++ post ∧ length (take 4 s) = 4.
Proof.
  intros H. exists (drop 4 s). split; [by rewrite take_drop|].
  apply standalone_run_length in H. rewrite length_take.
  unfold str, char in *. lia.
Qed.

Lemma prev_of_cons prev c pre : prev_of prev (c :: pre) = prev_of (Some c) pre.
Proof. unfold prev_of. rewrite last_cons. by destruct (last pre). Qed.

(** The search returns the leftmost standalone run. *)
Lemma first_postal_run_leftmost s : ∀ prev,
  match first_postal_run prev s with
  | Some run =>
    ∃ pre post,
      s = pre ++ run ++ post ∧ length run = 4 ∧
      standalone_run (prev_of prev pre) (run ++ post) = true ∧
      ∀ pre' t, s = pre' ++ t →
                standalone_run (prev_of prev pre') t = true →
                length pre ≤ length pre'
  | None =>
    ∀ pre' t, s = pre' ++ t → standalone_run (prev_of prev pre') t = false
  end.
Proof.
  induction s as [|c s IH]; intros prev; cbn [first_postal_run];
    destruct (standalone_run prev _) eqn:E.
  - apply standalone_run_length in E. simpl in E. lia.
  - intros pre' t [-> ->]%eq_sym%app_eq_nil. done.
  - destruct (standalone_run_take _ _ E) as (post & Hs & Hlen).
    exists [], post. split_and!; [done|done| |].
    + cbn [app]. by rewrite <- Hs.
    + intros; simpl; lia.
  - specialize (IH (Some c)).
    destruct (first_postal_run (Some c) s) as [run|].
    + destruct IH as (pre & post & -> & Hlen & Hrun & Hmin).
      exists (c :: pre), post. rewrite prev_of_cons.
      split_and!; [done..|].
      intros pre' t Hs Ht. destruct pre' as [|c' pre'].
      * cbn [app] in Hs. subst t. unfold prev_of in Ht. cbn [last] in Ht.
        by rewrite E in Ht.
      * injection Hs as <- Hs. rewrite prev_of_cons in Ht.
        specialize (Hmin _ _ Hs Ht). simpl. lia.
    + intros pre' t Hs. destruct pre' as [|c' pre'].
      * cbn [app] in Hs. by subst t.
      * injection Hs as <- Hs. rewrite prev_of_cons. by apply IH.
Qed.

Lemma postal_run_at_standalone text pre run post :
  postal_run_at text pre run post ↔
  text = pre ++ run ++ post ∧ length run = 4 ∧
  standalone_run (prev_of None pre) (run ++ post) = true.
Proof.
  unfold postal_run_at, prev_of. split.
  - intros (Ht & Hrun & Hpre & Hpost).
    pose proof (four_digits_length run Hrun) as Hlen.
    split_and!; [done..|]. rewrite standalone_run_split by done.
    rewrite Hrun, Hpost. destruct (last pre); simpl in *; by rewrite ?Hpre.
  - intros (Ht & Hlen & Hrun). rewrite standalone_run_split in Hrun by done.
    apply andb_prop in Hrun as [[Hpre Hrun]%andb_prop Hpost].
    apply negb_true_iff in Hpre, Hpost.
    split_and!; [done..| |done]. by destruct (last pre).
Qed.

(** X10: the fallback returns the leftmost run of four decimal digits of
    the row that has no word character next to it on either side, and
    [None] exactly when the row has no such run. *)
Theorem extract_postal_code_fallback_leftmost (text : str) :
  ∃ found,
    extract_postal_code_fallback text = Ok found ∧
    match found with
    | Some run =>
      ∃ pre post,
        postal_run_at text pre run post ∧
        ∀ pre' run' post',
          postal_run_at text pre' run' post' → length pre ≤ length pre'
    | None => ∀ pre run post, ¬ postal_run_at text pre run post
    end.
Proof.
  exists (first_postal_run None text).
  split; [apply extract_postal_code_fallback_spec|].
  pose proof (first_postal_run_leftmost text None) as H.
  destruct (first_postal_run None text) as [run|].
  - destruct H as (pre & post & Ht & Hlen & Hrun & Hmin).
    exists pre, post. split; [by apply postal_run_at_standalone|].
    intros pre' run' post' (Ht' & _ & Hrun')%postal_run_at_standalone.
    by apply (Hmin pre' (run' ++ post')).
  - intros pre run post (Ht & _ & Hrun)%postal_run_at_standalone.
    by rewrite (H pre (run ++ post) Ht) in Hrun.
Qed.

End Fallback.

(** ** The record builder, the batch driver and the rows of the page *)

Section ClassifyKeys.

(** The loop adds no key to the dictionary. *)
Lemma classify_loop_absent ents : ∀ (m m' : gmap str (list str)) k,
  classify_loop m ents = Ok m' → m !! k = None → m' !! k = None.
Proof.
  induction ents as [|e ents IH]; intros m m' k; cbn [classify_loop].
  - by intros [= ->].
  - unfold classify_step. destruct (reverse_map !! label e) as [key|].
    + destruct (Py.truthy key); [|rewrite bind_Ok; apply IH].
      unfold dict_getitem. match goal with
      | |- context [match ?x with Some _ => _ | None => _ end] =>
        destruct x as [l|] eqn:E
      end; [|by simpl].
      rewrite !bind_Ok. intros H Hk. apply (IH _ _ _ H).
      rewrite lookup_insert_ne; [done|]. intros ->.
      by pose proof (eq_trans (eq_sym E) Hk).
    + rewrite bind_Ok. apply IH.
Qed.

Lemma empty_extracted_absent k :
  k ∉ map fst label_map → empty_extracted !! k = None.
Proof.
  unfold empty_extracted, label_map. cbn [foldl map fst]. intros Hk.
  repeat (rewrite lookup_insert_ne;
          [|intros <-; apply Hk;
            repeat first [apply list_elem_of_here|apply list_elem_of_further]]).
  apply lookup_empty.
Qed.

(** X11: the loop over the matches never raises; it ends with exactly the
    six keys of [label_map], and under each key the texts of the matches
    whose label is the description of the key, in the order of the
    matches.  A match with any other label is left out. *)
Theorem classify_loop_files_by_label (ents : list entity) :
  ∃ extracted : gmap str (list str),
    classify_loop empty_extracted ents = Ok extracted ∧
    (∀ k d, (k, d) ∈ label_map →
       extracted !! k =
       Some (texts_of (List.filter (λ e, bool_decide (label e = d)) ents))) ∧
    (∀ k, k ∉ map fst label_map → extracted !! k = None).
Proof.
  destruct (classify_spec ents) as (m & Hloop & Hm).
  exists m. split_and!; [done|exact Hm|].
  intros k Hk. apply (classify_loop_absent _ _ _ _ Hloop).
  by apply empty_extracted_absent.
Qed.

(** X12: the reversed dictionary loses no label: it sends a description to
    a key exactly when [label_map] sends the key to the description, so
    every label the recognizer is asked for is filed under its own key. *)
Theorem reverse_map_inverts_label_map (k d : str) :
  reverse_map !! d = Some k ↔ (k, d) ∈ label_map.
Proof. split; [apply reverse_map_Some|apply reverse_map_lookup]. Qed.

End ClassifyKeys.

Section Rows.
Context {U : Unicode}.
Variable predict_entities : str → list str → list entity.

Lemma extract_single_company_info_fields text :
  ∃ record,
    extract_single_company_info predict_entities text = Ok record ∧
    map fst record = field_names.
Proof.
  destruct (extract_single_company_info_eq predict_entities text)
    as (name & phones & emails & _ & _ & _ & ->).
  eexists. split; [reflexivity|]. reflexivity.
Qed.

Lemma extract_companies_info_each texts :
  ∃ records,
    extract_companies_info predict_entities texts = Ok records ∧
    Forall2 (λ text record,
               extract_single_company_info predict_entities text = Ok record)
            texts records.
Proof.
  induction texts as [|text texts IH]; cbn [extract_companies_info].
  - exists []. split; [done|constructor].
  - destruct IH as (records & IH & Hrec).
    destruct (extract_single_company_info_fields text) as (record & Hr & _).
    rewrite Hr, bind_Ok, IH, bind_Ok. exists (record :: records).
    split; [done|]. by constructor.
Qed.

(** X13: the batch driver never raises: it returns one record per row, in
    the order of the rows, each the record of its row and each with the
    same eight field names in the same order. *)
Theorem extract_companies_info_rows (texts : list str) :
  ∃ records,
    extract_companies_info predict_entities texts = Ok records ∧
    Forall2 (λ text record,
               extract_single_company_info predict_entities text = Ok record ∧
               map fst record = field_names)
            texts records.
Proof.
  induction texts as [|text texts IH]; cbn [extract_companies_info].
  - exists []. split; [done|constructor].
  - destruct IH as (records & IH & Hrec).
    destruct (extract_single_company_info_fields text) as (record & Hr & Hf).
    rewrite Hr, bind_Ok, IH, bind_Ok. exists (record :: records).
    split; [done|]. by constructor.
Qed.

(** The first piece of [s.split(sep)] is the text before the first
    separator. *)
Lemma split_head s sep :
  ∃ x, head (Py.split s sep) = Some x ∧ (sep ∉ x) ∧
       (s = x ∨ ∃ rest, s = x ++ (sep :: rest)).
Proof.
  induction s as [|c s IH]; cbn [Py.split].
  - exists []. split_and!; [done|by intros ?%elem_of_nil|by left].
  - destruct IH as (x & Hx & Hsep & Hs).
    destruct (N.eqb_spec c sep) as [->|Hne].
    + exists []. split_and!; [done|by intros ?%elem_of_nil|].
      right. by exists s.
    + destruct (Py.split s sep) as [|seg segs]; [done|].
      injection Hx as <-. exists (c :: seg). split_and!; [done| |].
      * intros [?|?]%elem_of_cons; [by subst|done].
      * destruct Hs as [->|[rest ->]]; [by left|right; by exists rest].
Qed.

Lemma split_head_prefix x sep rest :
  sep ∉ x → head (Py.split (x ++ (sep :: rest)) sep) = Some x.
Proof.
  induction x as [|c x IH]; intros Hx; cbn [Py.split app].
  - by rewrite N.eqb_refl.
  - destruct (N.eqb_spec c sep) as [->|Hne]; [by destruct Hx; left|].
    rewrite not_elem_of_cons in Hx. destruct Hx as [_ Hx].
    specialize (IH Hx). by destruct (Py.split _ _) as [|? ?]; simplify_eq/=.
Qed.

Lemma split_head_whole x sep : sep ∉ x → head (Py.split x sep) = Some x.
Proof.
  induction x as [|c x IH]; intros Hx; cbn [Py.split]; [done|].
  destruct (N.eqb_spec c sep) as [->|Hne]; [by destruct Hx; left|].
  rewrite not_elem_of_cons in Hx. destruct Hx as [_ Hx].
  specialize (IH Hx). by destruct (Py.split _ _) as [|? ?]; simplify_eq/=.
Qed.

Lemma company_name_of text name :
  head (Py.split text 44%N) = Some name →
  ∃ record,
    extract_single_company_info predict_entities text = Ok record ∧
    record_get record company_name_key = Some (VStr name).
Proof.
  intros Hhead.
  destruct (extract_single_company_info_eq predict_entities text)
    as (name' & phones & emails & Hname & _ & _ & ->).
  eexists. split; [reflexivity|].
  rewrite record_get_here by (vm_compute; reflexivity).
  destruct (Py.split text 44%N) as [|x xs]; [done|].
  rewrite getitem_0 in Hname. by simplify_eq/=.
Qed.

(** X14: the company name of the record is the row up to its first comma:
    it holds no comma, and the row is the name, or the name followed by a
    comma and the rest. *)
Theorem company_name_up_to_first_comma (text : str) :
  ∃ record name,
    extract_single_company_info predict_entities text = Ok record ∧
    record_get record company_name_key = Some (VStr name) ∧
    (44%N ∉ name) ∧
    (text = name ∨ ∃ rest, text = name ++ (44%N :: rest)).
Proof.
  destruct (split_head text 44%N) as (name & Hhead & Hno & Hrow).
  destruct (company_name_of text name Hhead) as (record & Hr & Hget).
  by exists record, name.
Qed.

Lemma join_cons sep p ps :
  Py.join sep (p :: ps) = p ∨ ∃ rest, Py.join sep (p :: ps) = p ++ sep ++ rest.
Proof. destruct ps; [by left|right; by eexists]. Qed.

(** X15: the rows of the page through the batch driver: the header row of
    the table is left out, every other row gives one record, and a row
    whose first cell holds no comma gives a record whose company name is
    that cell. *)
Theorem html_row_company_name
    (header : list str) (rows : list (list str)) (i : nat)
    (name : str) (cells : list str) :
  rows !! i = Some (name :: cells) →
  44%N ∉ name →
  ∃ records record,
    extract_companies_info predict_entities
      (extract_text_from_html_page (header :: rows)) = Ok records ∧
    length records = length rows ∧
    records !! i = Some record ∧
    record_get record company_name_key = Some (VStr name).
Proof.
  intros Hrow Hname.
  destruct (extract_companies_info_each
              (extract_text_from_html_page (header :: rows)))
    as (records & Hrecords & Heach).
  assert (extract_text_from_html_page (header :: rows) !! i
          = Some (Py.join (py ", ") (name :: cells))) as Htext.
  { unfold extract_text_from_html_page. rewrite list_lookup_fmap.
    change (drop 1 (header :: rows)) with rows. by rewrite Hrow. }
  destruct (Forall2_lookup_l _ _ _ _ _ Heach Htext) as (record & Hi & Hrec).
  destruct (company_name_of (Py.join (py ", ") (name :: cells)) name)
    as (record' & Hr & Hget).
  { destruct (join_cons (py ", ") name cells) as [->|[rest ->]].
    - by apply split_head_whole.
    - change (py ", " ++ rest) with (44%N :: 32%N :: rest).
      by apply split_head_prefix. }
  pose proof (eq_trans (eq_sym Hrec) Hr) as [= ->].
  exists records, record'. split_and!; [done| |done|done].
  apply Forall2_length in Heach. rewrite <- Heach.
  unfold extract_text_from_html_page. by rewrite length_map.
Qed.

End Rows.

(** ** What the fields of a record can hold *)

Section Fields.
Context {U : Unicode} {L : UnicodeLaws U}.
Variable predict_entities : str → list str → list entity.

Lemma standalone_run_four_digits prev s :
  standalone_run prev s = true → four_digits (take 4 s) = true.
Proof.
  unfold standalone_run. by intros [[_ ?]%andb_prop _]%andb_prop.
Qed.

Lemma first_postal_run_four_digits s : ∀ prev run,
  first_postal_run prev s = Some run → four_digits run = true.
Proof.
  induction s as [|c s IH]; intros prev run; cbn [first_postal_run];
    destruct (standalone_run prev _) eqn:E.
  - intros [= <-]. by apply standalone_run_four_digits in E.
  - done.
  - intros [= <-]. by apply standalone_run_four_digits in E.
  - apply IH.
Qed.

Lemma postal_code_of_four_digits ents text v :
  postal_code_of ents text = Some v → four_digits v = true.
Proof.
  unfold postal_code_of. rewrite filter_postal_code_eq.
  destruct (List.filter four_digits _) as [|p ps] eqn:E.
  - unfold Re.findall. rewrite findall_postal_word_head.
    apply first_postal_run_four_digits.
  - intros [= <-].
    assert (In p (List.filter four_digits
                    (candidates (description_of (py "postal_code")) ents)))
      as Hp by (rewrite E; by left).
    by apply filter_In in Hp as [_ ?].
Qed.

Lemma str_or_postal o :
  (∀ v, o = Some v → four_digits v = true) →
  ∃ v, str_or o (py "No postal code detected") = VStr v ∧
       (v = py "No postal code detected" ∨ four_digits v = true).
Proof.
  intros H. destruct o as [v|]; cbn [str_or]; [|eauto].
  destruct (Py.truthy v); eauto.
Qed.

(** X16: the postal code of a record is the placeholder or a string of
    exactly four decimal digits, whatever the recognizer returns. *)
Theorem postal_code_field_shape (text : str) :
  ∃ record v,
    extract_single_company_info predict_entities text = Ok record ∧
    record_get record (py "Postal code") = Some (VStr v) ∧
    (v = py "No postal code detected" ∨
     (length v = 4 ∧ Forall (λ c, isdecimal c = true) v)).
Proof.
  destruct (extract_single_company_info_eq predict_entities text)
    as (name & phones & emails & _ & _ & _ & ->).
  destruct (str_or_postal
              (postal_code_of (predict_entities text (map snd label_map)) text))
    as (v & Hv & Hshape); [apply postal_code_of_four_digits|].
  eexists _, v. split; [reflexivity|].
  rewrite !record_get_skip by (vm_compute; reflexivity).
  rewrite record_get_here by (vm_compute; reflexivity).
  split; [f_equal; exact Hv|].
  destruct Hshape as [->|?%four_digits_spec]; [by left|by right].
Qed.

Lemma elem_of_candidates v d ents :
  v ∈ candidates d ents → ∃ e, e ∈ ents ∧ label e = d ∧ text e = v.
Proof.
  unfold candidates, texts_of.
  intros (e & -> & He)%list_elem_of_fmap.
  apply list_elem_of_In, filter_In in He as [He Hl].
  exists e. split_and!; [by apply list_elem_of_In| |done].
  by apply bool_decide_eq_true in Hl.
Qed.

Lemma first_value_filtered placeholder (f : str → bool) l :
  ∃ v, first_value placeholder (List.filter f l) = VStr v ∧
       (v = placeholder ∨ (v ∈ l ∧ f v = true)).
Proof.
  unfold first_value. destruct (List.filter f l) as [|v l'] eqn:E.
  - exists placeholder. split; [done|by left].
  - exists v. split; [done|]. right.
    assert (In v (List.filter f l)) as Hv by (rewrite E; by left).
    apply filter_In in Hv as [Hv ?]. split; [by apply list_elem_of_In|done].
Qed.

(** X17: the street address of a record is the placeholder or the text of
    a match labelled as a street address in which, once in lower case,
    one of [str], [blvd] and [bul.] occurs; a match without such a word
    is never reported. *)
Theorem street_address_field_shape (row : str) :
  let ents := predict_entities row (map snd label_map) in
  ∃ record v,
    extract_single_company_info predict_entities row = Ok record ∧
    record_get record (py "Street address") = Some (VStr v) ∧
    (v = py "No street address detected" ∨
     ((∃ e, e ∈ ents ∧ label e = description_of (py "street_address") ∧
            text e = v) ∧
      ∃ word pre post,
        word ∈ street_words ∧ lower v = pre ++ word ++ post)).
Proof.
  intros ents.
  destruct (extract_single_company_info_eq predict_entities row)
    as (name & phones & emails & _ & _ & _ & ->).
  destruct (first_value_filtered (py "No street address detected") street_like
              (candidates (description_of (py "street_address")) ents))
    as (v & Hv & Hshape).
  eexists _, v. split; [reflexivity|].
  rewrite !record_get_skip by (vm_compute; reflexivity).
  rewrite record_get_here by (vm_compute; reflexivity).
  split; [f_equal; exact Hv|].
  destruct Hshape as [->|[Hin Hlike]]; [by left|right]. split.
  - by apply elem_of_candidates.
  - by apply street_like_spec in Hlike.
Qed.

(** X18: the phone numbers of a record are the placeholder or a list that
    is not empty, has no repetition and holds only strings made of a plus
    sign and at least nine decimal digits. *)
Theorem phone_numbers_field_shape (row : str) :
  ∃ record,
    extract_single_company_info predict_entities row = Ok record ∧
    (record_get record (py "Phone numbers")
       = Some (VStr (py "No phones detected")) ∨
     ∃ l, record_get record (py "Phone numbers") = Some (VList l) ∧
          l ≠ [] ∧ NoDup l ∧
          Forall (λ p, ∃ ds, p = 43%N :: ds ∧
                            Forall (λ c, isdecimal c = true) ds ∧
                            9 ≤ length ds) l).
Proof.
  destruct (extract_single_company_info_eq predict_entities row)
    as (name & phones & emails & _ & Hphones & _ & ->).
  destruct (clean_phone_number_spec
              (candidates (description_of (py "phone"))
                 (predict_entities row (map snd label_map))))
    as (out & Hout & Hnodup & Hshape).
  pose proof (eq_trans (eq_sym Hphones) Hout) as [= ->].
  eexists. split; [reflexivity|].
  rewrite !record_get_skip by (vm_compute; reflexivity).
  rewrite record_get_here by (vm_compute; reflexivity).
  destruct out as [|p out]; [by left|right].
  exists (p :: out). split_and!; done.
Qed.

End Fields.

(** ** The further properties at the Basic Latin database, on concrete
    inputs *)

Lemma clean_phone_number_short_witness :
  clean_phone_number (U:=basic_latin) [py "12"; py "0897 88"] = Ok [].
Proof.
  apply (@clean_phone_number_short basic_latin [py "12"; py "0897 88"]).
  repeat (constructor; [cbn; lia|]). constructor.
Defined.






Lemma clean_emails_last_label_witness :
  clean_emails (U:=basic_latin) [py "Info@Company.BG"]
  = Ok [py "Info@Company.bg"].
Proof.
  apply (@clean_emails_last_label basic_latin basic_latin_laws
           (py "Info@Company") (py "BG")).
  - rewrite list_elem_of_In. vm_compute. intuition discriminate.
  - repeat (constructor; [reflexivity|]). constructor.
  - vm_compute. reflexivity.
  - vm_compute. reflexivity.
Defined.

Lemma clean_emails_no_dot_witness :
  clean_emails (U:=basic_latin) [py "Web@localhost"] = Ok [py "@localhost"].
Proof.
  etrans.
  - apply (@clean_emails_no_dot basic_latin (py "Web@localhost")).
    rewrite list_elem_of_In. vm_compute. intuition discriminate.
  - vm_compute. reflexivity.
Defined.

Lemma html_row_company_name_witness :
  ∃ records record,
    extract_companies_info (U:=basic_latin) no_entities
      (extract_text_from_html_page
         [[py "Name"; py "Address"];
          [py "ABC Capital"; py "Sofia 1000, 12 Main Str."]]) = Ok records ∧
    length records = 1 ∧
    records !! 0 = Some record ∧
    record_get record company_name_key = Some (VStr (py "ABC Capital")).
Proof.
  apply (@html_row_company_name basic_latin no_entities
           [py "Name"; py "Address"]
           [[py "ABC Capital"; py "Sofia 1000, 12 Main Str."]] 0
           (py "ABC Capital") [py "Sofia 1000, 12 Main Str."]).
  - reflexivity.
  - rewrite list_elem_of_In. vm_compute. intuition discriminate.
Defined.

Lemma extract_postal_code_fallback_leftmost_witness :
  ∃ found,
    extract_postal_code_fallback (U:=basic_latin)
      (py "BULGARIA , 1202 Sofia, 16 Srebarna Str.") = Ok found ∧
    match found with
    | Some run =>
      ∃ pre post,
        postal_run_at (U:=basic_latin)
          (py "BULGARIA , 1202 Sofia, 16 Srebarna Str.") pre run post ∧
        ∀ pre' run' post',
          postal_run_at (U:=basic_latin)
            (py "BULGARIA , 1202 Sofia, 16 Srebarna Str.") pre' run' post' →
          length pre ≤ length pre'
    | None =>
      ∀ pre run post,
        ¬ postal_run_at (U:=basic_latin)
            (py "BULGARIA , 1202 Sofia, 16 Srebarna Str.") pre run post
    end.
Proof.
  exact (@extract_postal_code_fallback_leftmost basic_latin basic_latin_laws
           (py "BULGARIA , 1202 Sofia, 16 Srebarna Str.")).
Defined.

Lemma postal_code_field_shape_witness :
  ∃ record v,
    extract_single_company_info (U:=basic_latin) no_entities
      (py "BULGARIA , 1202 Sofia, 16 Srebarna Str.") = Ok record ∧
    record_get record (py "Postal code") = Some (VStr v) ∧
    (v = py "No postal code detected" ∨
     (length v = 4 ∧
      Forall (λ c, isdecimal (Unicode:=basic_latin) c = true) v)).
Proof.
  exact (@postal_code_field_shape basic_latin basic_latin_laws no_entities
           (py "BULGARIA , 1202 Sofia, 16 Srebarna Str.")).
Defined.

Lemma phone_numbers_field_shape_witness :
  ∃ record,
    extract_single_company_info (U:=basic_latin) docstring_entities
      (py "ABC Capital, Bulgaria, Sofia 1000, 12 Main Str., +35921234567, info@abc.bg")
      = Ok record ∧
    (record_get record (py "Phone numbers")
       = Some (VStr (py "No phones detected")) ∨
     ∃ l, record_get record (py "Phone numbers") = Some (VList l) ∧
          l ≠ [] ∧ NoDup l ∧
          Forall (λ p, ∃ ds, p = 43%N :: ds ∧
                            Forall (λ c, isdecimal (Unicode:=basic_latin) c = true) ds ∧
                            9 ≤ length ds) l).
Proof.
  exact (@phone_numbers_field_shape basic_latin basic_latin_laws
           docstring_entities
           (py "ABC Capital, Bulgaria, Sofia 1000, 12 Main Str., +35921234567, info@abc.bg")).
Defined.
